(** * AsyncParameterClient (rclpy/parameter_client.py)

    A shallow embedding of the parameter client of rclpy and the properties
    of its readiness queries, its bounded wait and its request wrappers.

    The client is glue over collaborators that live outside the file: the
    node that creates service clients, the service clients themselves
    (readiness probe, blocking wait, asynchronous call), the wall clock,
    the futures and the YAML parameter-file parser.  They are modelled as an
    environment of oracles: every answer of a collaborator may depend on the
    whole history of interactions so far, and every interaction is appended
    to that history.  The methods of the class are programs in a state and
    exception monad over the attribute dictionary of [self] and the history.

    Python floats (time stamps, time-outs) are modelled as exact rationals. *)

From Stdlib Require Import QArith Lqa.
From stdpp Require Import gmap strings list.

Close Scope Q_scope.
Open Scope string_scope.
Open Scope list_scope.

(** ** Handles of the collaborators *)

(** The six service types imported from [rcl_interfaces.srv]. *)
Inductive ServiceType :=
  | GetParameters
  | ListParameters
  | SetParameters
  | GetParameterTypes
  | DescribeParameters
  | SetParametersAtomically.

Inductive QoSProfile :=
  | qos_profile_services_default
  | QoSProfileOther (id : nat).

Inductive CallbackGroup := CallbackGroupHandle (id : nat).
Inductive Node := NodeHandle (id : nat).
Inductive Client := ClientHandle (id : nat).
Inductive Future := FutureHandle (id : nat).
Inductive Callable := CallableHandle (id : nat).

(** ** Parameters and their descriptors *)

(** Modelled from the spec: the "declared type tag" of a parameter; the
    enumeration [Parameter.Type] is not part of the file (its docstring
    names INTEGER and STRING). *)
Inductive ParameterType :=
  | BOOL | INTEGER | DOUBLE | STRING
  | BYTE_ARRAY | BOOL_ARRAY | INTEGER_ARRAY | DOUBLE_ARRAY | STRING_ARRAY.

(** Modelled from the spec: the "value" of a parameter, not part of the
    file either. *)
Inductive ParameterValue :=
  | PBool (b : bool)
  | PInteger (z : Z)
  | PDouble (q : Q)
  | PString (s : string)
  | PByteArray (l : list Z)
  | PBoolArray (l : list bool)
  | PIntegerArray (l : list Z)
  | PDoubleArray (l : list Q)
  | PStringArray (l : list string).

(** Modelled from the spec: the class [rclpy.parameter.Parameter] is not
    part of the file.  The spec describes a parameter by a name, a declared
    type tag and a value, where type and value may both be absent.  (The
    class is called Parameter in the source, a reserved word here.) *)
Record RclpyParameter := mkRclpyParameter {
  name : string;
  type_ : option ParameterType;
  value : option ParameterValue
}.

(** Modelled from the spec: the message [rcl_interfaces.msg.Parameter], the
    serialized descriptor, "a serialized (name, type, value) triple". *)
Record ParameterMsg := mkParameterMsg {
  msg_name : string;
  msg_type : option ParameterType;
  msg_value : option ParameterValue
}.

(** Modelled from the spec: [Parameter.to_parameter_msg] is not part of the
    file.  A rich value is "converted to a descriptor with identical
    name/type/value". *)
Definition to_parameter_msg (p : RclpyParameter) : ParameterMsg :=
  {| msg_name := name p; msg_type := type_ p; msg_value := value p |}.

(** Modelled from the spec: the constructor call [Parameter(name=i)], whose
    class is not part of the file, gives the name "and no type/value". *)
Definition RclpyParameter_of_name (i : string) : RclpyParameter :=
  {| name := i; type_ := None; value := None |}.

(** ** Requests *)

Record ListParametersRequest := mkListParametersRequest {
  prefixes : list string;
  depth : Z
}.

(** [ListParameters.Request()]: a generated message starts with an empty
    sequence and a zero. *)
Definition ListParameters_Request : ListParametersRequest :=
  {| prefixes := []; depth := 0 |}.

Definition set_prefixes (v : list string) (r : ListParametersRequest) :=
  {| prefixes := v; depth := depth r |}.
Definition set_depth (v : Z) (r : ListParametersRequest) :=
  {| prefixes := prefixes r; depth := v |}.

Inductive Request :=
  | ListParametersReq (r : ListParametersRequest)
  | GetParametersReq (names : list string)
  | SetParametersReq (parameters : list ParameterMsg)
  | DescribeParametersReq (names : list string)
  | GetParameterTypesReq (names : list string)
  | SetParametersAtomicallyReq (parameters : list ParameterMsg).

(** An element of the sequences that [set_parameters] accepts:
    [Union[Parameter, ParameterMsg]]. *)
Abbreviation ParameterLike := (RclpyParameter + ParameterMsg)%type.

(** The dictionary returned by the parameter-file parser, in insertion
    order (the order of [dict.values()]). *)
Abbreviation ParameterDict := (list (string * ParameterLike)).

(** ** The world: attributes of [self] and the history of interactions *)

Inductive Value :=
  | VStr (s : string)
  | VNode (n : Node)
  | VClient (c : Client).

Inductive Event :=
  | EvCreateClient (n : Node) (t : ServiceType) (srv_name : string)
      (qos : QoSProfile) (cg : option CallbackGroup) (c : Client)
  | EvServiceIsReady (c : Client) (r : bool)
  | EvWaitForService (c : Client) (timeout_sec : option Q) (r : bool)
  | EvTime (t : Q)
  | EvCallAsync (c : Client) (req : Request) (f : Future)
  | EvAddDoneCallback (f : Future) (cb : Callable)
  | EvParameterDictFromYamlFile (file : string) (use_wildcard : bool)
      (r : option ParameterDict).

(** The collaborators.  Each oracle sees the history up to its call. *)
Record Env := mkEnv {
  env_create_client :
    list Event -> Node -> ServiceType -> string -> QoSProfile ->
    option CallbackGroup -> Client;
  env_service_is_ready : list Event -> Client -> bool;
  env_wait_for_service : list Event -> Client -> option Q -> bool;
  env_time : list Event -> Q;
  env_call_async : list Event -> Client -> Request -> Future;
  (** [None]: the parser raises (unreadable or malformed file). *)
  env_parameter_dict_from_yaml_file :
    list Event -> string -> bool -> option ParameterDict
}.

Record World := mkWorld {
  attrs : gmap string Value;
  history : list Event
}.

Inductive Exception :=
  | AttributeError (attr : string)
  | ParameterFileError (file : string).

Inductive Result (A : Type) :=
  | Ok (a : A)
  | Raise (e : Exception).
Arguments Ok {A} a.
Arguments Raise {A} e.

(** ** The monad of methods *)

Definition M (A : Type) : Type := World -> Result A * World.

Definition ret {A} (a : A) : M A := fun w => (Ok a, w).

Definition bind {A B} (m : M A) (k : A -> M B) : M B :=
  fun w =>
    match m w with
    | (Ok a, w') => k a w'
    | (Raise e, w') => (Raise e, w')
    end.

Declare Scope py_scope.
Delimit Scope py_scope with py.
Notation "x <- c1 ;; c2" := (bind c1 (fun x => c2))
  (at level 100, c1 at next level, right associativity) : py_scope.
Notation "c1 ;; c2" := (bind c1 (fun _ => c2))
  (at level 100, right associativity) : py_scope.
Open Scope py_scope.

Definition log (e : Event) (w : World) : World :=
  {| attrs := attrs w; history := history w ++ [e] |}.

(** [self.<attr> = v] *)
Definition setattr (attr : string) (v : Value) : M unit :=
  fun w => (Ok tt, {| attrs := <[attr := v]> (attrs w); history := history w |}).

(** [self.<attr>], used where the code goes on to call a client method. *)
Definition getattr_client (attr : string) : M Client :=
  fun w =>
    match attrs w !! attr with
    | Some (VClient c) => (Ok c, w)
    | _ => (Raise (AttributeError attr), w)
    end.

Definition getattr_node (attr : string) : M Node :=
  fun w =>
    match attrs w !! attr with
    | Some (VNode n) => (Ok n, w)
    | _ => (Raise (AttributeError attr), w)
    end.

Section Collaborators.
Variable E : Env.

(** [node.create_client(srv_type, srv_name, qos_profile=, callback_group=)] *)
Definition create_client (n : Node) (t : ServiceType) (srv_name : string)
    (qos : QoSProfile) (cg : option CallbackGroup) : M Client :=
  fun w =>
    let c := env_create_client E (history w) n t srv_name qos cg in
    (Ok c, log (EvCreateClient n t srv_name qos cg c) w).

(** [client.service_is_ready()] *)
Definition client_service_is_ready (c : Client) : M bool :=
  fun w =>
    let r := env_service_is_ready E (history w) c in
    (Ok r, log (EvServiceIsReady c r) w).

(** [client.wait_for_service(timeout_sec)]; [None] when called without
    argument. *)
Definition client_wait_for_service (c : Client) (timeout_sec : option Q)
    : M bool :=
  fun w =>
    let r := env_wait_for_service E (history w) c timeout_sec in
    (Ok r, log (EvWaitForService c timeout_sec r) w).

(** [time.time()] *)
Definition time_time : M Q :=
  fun w => let t := env_time E (history w) in (Ok t, log (EvTime t) w).

(** [client.call_async(request)] *)
Definition call_async (c : Client) (req : Request) : M Future :=
  fun w =>
    let f := env_call_async E (history w) c req in
    (Ok f, log (EvCallAsync c req f) w).

(** [future.add_done_callback(callback)] *)
Definition add_done_callback (f : Future) (cb : Callable) : M unit :=
  fun w => (Ok tt, log (EvAddDoneCallback f cb) w).

(** [parameter_dict_from_yaml_file(parameter_file, use_wildcard)] *)
Definition parameter_dict_from_yaml_file (file : string)
    (use_wildcard : bool) : M ParameterDict :=
  fun w =>
    let r := env_parameter_dict_from_yaml_file E (history w) file use_wildcard in
    let w' := log (EvParameterDictFromYamlFile file use_wildcard r) w in
    match r with
    | Some d => (Ok d, w')
    | None => (Raise (ParameterFileError file), w')
    end.

(** ** The class AsyncParameterClient *)

(** [__init__(self, node, remote_node_name, qos_profile, callback_group)] *)
Definition init (node : Node) (remote_node_name : string)
    (qos_profile : QoSProfile) (callback_group : option CallbackGroup)
    : M unit :=
  setattr "remote_node_name" (VStr remote_node_name) ;;
  setattr "node" (VNode node) ;;
  n <- getattr_node "node" ;;
  c <- create_client n GetParameters
         (remote_node_name ++ "/get_parameters") qos_profile callback_group ;;
  setattr "_get_parameter_client" (VClient c) ;;
  n <- getattr_node "node" ;;
  c <- create_client n ListParameters
         (remote_node_name ++ "/list_parameters") qos_profile callback_group ;;
  setattr "_list_parameter_client" (VClient c) ;;
  n <- getattr_node "node" ;;
  c <- create_client n SetParameters
         (remote_node_name ++ "/set_parameters") qos_profile callback_group ;;
  setattr "_set_parameter_client" (VClient c) ;;
  n <- getattr_node "node" ;;
  c <- create_client n GetParameterTypes
         (remote_node_name ++ "/get_parameter_types") qos_profile callback_group ;;
  setattr "_get_parameter_types_client" (VClient c) ;;
  n <- getattr_node "node" ;;
  c <- create_client n DescribeParameters
         (remote_node_name ++ "/describe_parameters") qos_profile callback_group ;;
  setattr "_describe_parameters_client" (VClient c) ;;
  n <- getattr_node "node" ;;
  c <- create_client n SetParametersAtomically
         (remote_node_name ++ "/set_parameters_atomically")
         qos_profile callback_group ;;
  setattr "_set_parameters_atomically_client" (VClient c).

(** Python's [all] on a list of booleans. *)
Definition all (l : list bool) : bool := forallb id l.

(** [service_is_ready(self)]: the list literal evaluates the six probes in
    order, then [all] folds them. *)
Definition service_is_ready : M bool :=
  c <- getattr_client "_list_parameter_client" ;;
  r1 <- client_service_is_ready c ;;
  c <- getattr_client "_set_parameter_client" ;;
  r2 <- client_service_is_ready c ;;
  c <- getattr_client "_get_parameter_client" ;;
  r3 <- client_service_is_ready c ;;
  c <- getattr_client "_get_parameter_types_client" ;;
  r4 <- client_service_is_ready c ;;
  c <- getattr_client "_describe_parameters_client" ;;
  r5 <- client_service_is_ready c ;;
  c <- getattr_client "_set_parameters_atomically_client" ;;
  r6 <- client_service_is_ready c ;;
  ret (all [r1; r2; r3; r4; r5; r6]).

(** The list comprehension [[f(x) for x in l]]. *)
Fixpoint comprehension {A B} (f : A -> M B) (l : list A) : M (list B) :=
  match l with
  | [] => ret []
  | x :: l' =>
      y <- f x ;;
      ys <- comprehension f l' ;;
      ret (y :: ys)
  end.

(** The [for] loop of [wait_for_service]: [client_wait_fns] are the bound
    wait methods still to be visited, [timeout_sec] and [prev] the two
    variables the loop updates. *)
Fixpoint wait_loop (client_wait_fns : list Client) (timeout_sec prev : Q)
    : M bool :=
  match client_wait_fns with
  | [] => ret true
  | c :: rest =>
      if Qlt_le_dec timeout_sec 0 then ret false
      else
        ok <- client_wait_for_service c (Some timeout_sec) ;;
        if negb ok then ret false
        else
          now <- time_time ;;
          let timeout_sec := (timeout_sec - (now - prev))%Q in
          prev <- time_time ;;
          wait_loop rest timeout_sec prev
  end.

(** [wait_for_service(self, timeout_sec=None)] *)
Definition wait_for_service (timeout_sec : option Q) : M bool :=
  c1 <- getattr_client "_list_parameter_client" ;;
  c2 <- getattr_client "_set_parameter_client" ;;
  c3 <- getattr_client "_get_parameter_client" ;;
  c4 <- getattr_client "_get_parameter_types_client" ;;
  c5 <- getattr_client "_describe_parameters_client" ;;
  c6 <- getattr_client "_set_parameters_atomically_client" ;;
  let client_wait_fns := [c1; c2; c3; c4; c5; c6] in
  match timeout_sec with
  | None =>
      rs <- comprehension (fun fn => client_wait_for_service fn None)
              client_wait_fns ;;
      ret (all rs)
  | Some timeout_sec =>
      prev <- time_time ;;
      wait_loop client_wait_fns timeout_sec prev
  end.

(** The default of the argument [depth] of [list_parameters]. *)
Definition depth_default : Z := 1.

(** [list_parameters(self, prefixes=None, depth=1, callback=None)];
    [if prefixes:] is false for [None] and for the empty list. *)
Definition list_parameters (prefixes : option (list string)) (depth : Z)
    (callback : option Callable) : M Future :=
  let request := ListParameters_Request in
  let request :=
    match prefixes with
    | Some (p :: ps) => set_prefixes (p :: ps) request
    | _ => request
    end in
  let request := set_depth depth request in
  c <- getattr_client "_list_parameter_client" ;;
  future <- call_async c (ListParametersReq request) ;;
  match callback with
  | Some cb => add_done_callback future cb
  | None => ret tt
  end ;;
  ret future.

(** [get_parameters(self, names, callback=None)] *)
Definition get_parameters (names : list string) (callback : option Callable)
    : M Future :=
  let request := GetParametersReq names in
  c <- getattr_client "_get_parameter_client" ;;
  future <- call_async c request ;;
  match callback with
  | Some cb => add_done_callback future cb
  | None => ret tt
  end ;;
  ret future.

(** The element of the comprehension of [set_parameters]:
    [i.to_parameter_msg() if isinstance(i, Parameter) else i]. *)
Definition as_parameter_msg (i : ParameterLike) : ParameterMsg :=
  match i with
  | inl p => to_parameter_msg p
  | inr m => m
  end.

(** [set_parameters(self, parameters, callback=None)] *)
Definition set_parameters (parameters : list ParameterLike)
    (callback : option Callable) : M Future :=
  let request := SetParametersReq (map as_parameter_msg parameters) in
  c <- getattr_client "_set_parameter_client" ;;
  future <- call_async c request ;;
  match callback with
  | Some cb => add_done_callback future cb
  | None => ret tt
  end ;;
  ret future.

(** [describe_parameters(self, names, callback=None)] *)
Definition describe_parameters (names : list string)
    (callback : option Callable) : M Future :=
  let request := DescribeParametersReq names in
  c <- getattr_client "_describe_parameters_client" ;;
  future <- call_async c request ;;
  match callback with
  | Some cb => add_done_callback future cb
  | None => ret tt
  end ;;
  ret future.

(** [get_parameter_types(self, names, callback=None)] *)
Definition get_parameter_types (names : list string)
    (callback : option Callable) : M Future :=
  let request := GetParameterTypesReq names in
  c <- getattr_client "_get_parameter_types_client" ;;
  future <- call_async c request ;;
  match callback with
  | Some cb => add_done_callback future cb
  | None => ret tt
  end ;;
  ret future.

(** [set_parameters_atomically(self, parameters, callback=None)] *)
Definition set_parameters_atomically (parameters : list ParameterLike)
    (callback : option Callable) : M Future :=
  let request :=
    SetParametersAtomicallyReq (map as_parameter_msg parameters) in
  c <- getattr_client "_set_parameters_atomically_client" ;;
  future <- call_async c request ;;
  match callback with
  | Some cb => add_done_callback future cb
  | None => ret tt
  end ;;
  ret future.

(** [delete_parameters(self, names, callback=None)] *)
Definition delete_parameters (names : list string)
    (callback : option Callable) : M Future :=
  let request :=
    SetParametersReq
      (map (fun i => to_parameter_msg (RclpyParameter_of_name i)) names) in
  c <- getattr_client "_set_parameter_client" ;;
  future <- call_async c request ;;
  match callback with
  | Some cb => add_done_callback future cb
  | None => ret tt
  end ;;
  ret future.

(** [load_parameter_file(self, parameter_file, use_wildcard=False)] *)
Definition load_parameter_file (parameter_file : string)
    (use_wildcard : bool) : M Future :=
  param_dict <- parameter_dict_from_yaml_file parameter_file use_wildcard ;;
  future <- set_parameters (map snd param_dict) None ;;
  ret future.

End Collaborators.


(** ** The state a constructed client is in *)

(** The six service clients of a parameter client. *)
Record Endpoints := mkEndpoints {
  list_client : Client;
  set_client : Client;
  get_client : Client;
  get_types_client : Client;
  describe_client : Client;
  set_atomically_client : Client
}.

(** The order in which [service_is_ready] and [wait_for_service] visit
    the clients. *)
Definition visit_order (eps : Endpoints) : list Client :=
  [list_client eps; set_client eps; get_client eps;
   get_types_client eps; describe_client eps; set_atomically_client eps].

(** [self] holds the six clients [eps] in the attributes that [__init__]
    assigns. *)
Definition constructed (eps : Endpoints) (w : World) : Prop :=
  attrs w !! "_list_parameter_client" = Some (VClient (list_client eps)) /\
  attrs w !! "_set_parameter_client" = Some (VClient (set_client eps)) /\
  attrs w !! "_get_parameter_client" = Some (VClient (get_client eps)) /\
  attrs w !! "_get_parameter_types_client"
    = Some (VClient (get_types_client eps)) /\
  attrs w !! "_describe_parameters_client"
    = Some (VClient (describe_client eps)) /\
  attrs w !! "_set_parameters_atomically_client"
    = Some (VClient (set_atomically_client eps)).

(** The answer recorded in an event is the one the environment gives at the
    history [h] that precedes the event. *)
Definition answers (E : Env) (h : list Event) (e : Event) : Prop :=
  match e with
  | EvCreateClient n t s qos cg c => c = env_create_client E h n t s qos cg
  | EvServiceIsReady c r => r = env_service_is_ready E h c
  | EvWaitForService c t r => r = env_wait_for_service E h c t
  | EvTime t => t = env_time E h
  | EvCallAsync c req f => f = env_call_async E h c req
  | EvAddDoneCallback _ _ => True
  | EvParameterDictFromYamlFile file wc r =>
      r = env_parameter_dict_from_yaml_file E h file wc
  end.

(** Every event of [evs], appended after [h], records a genuine answer. *)
Fixpoint faithful (E : Env) (h evs : list Event) : Prop :=
  match evs with
  | [] => True
  | e :: evs' => answers E h e /\ faithful E (h ++ [e]) evs'
  end.

(** ** A concrete environment, for running the methods *)

Definition demo_env : Env := {|
  env_create_client := fun h _ _ _ _ _ => ClientHandle (length h);
  env_service_is_ready := fun _ _ => true;
  env_wait_for_service := fun _ _ _ => true;
  env_time := fun h => inject_Z (Z.of_nat (length h));
  env_call_async := fun h _ _ => FutureHandle (length h);
  env_parameter_dict_from_yaml_file := fun _ _ _ =>
    Some [("int_param",
           inl (mkRclpyParameter "int_param" (Some INTEGER) (Some (PInteger 88))));
          ("string/param",
           inr (mkParameterMsg "string/param" (Some STRING)
                  (Some (PString "hello world"))))]
|}.

Definition blank : World := {| attrs := ∅; history := [] |}.

(** The world after [AsyncParameterClient(node, 'example_node')]. *)
Definition demo_world : World :=
  snd (init demo_env (NodeHandle 0) "example_node"
         qos_profile_services_default None blank).

Definition demo_endpoints : Endpoints :=
  {| list_client := ClientHandle 1; set_client := ClientHandle 2;
     get_client := ClientHandle 0; get_types_client := ClientHandle 3;
     describe_client := ClientHandle 4;
     set_atomically_client := ClientHandle 5 |}.

(** ** Observations on a run of the bounded wait *)

(** The underlying waits recorded in a stretch of history: the client, the
    time-out it was given and what it returned. *)
Definition waits (evs : list Event) : list (Client * option Q * bool) :=
  flat_map
    (fun e =>
       match e with
       | EvWaitForService c t r => [(c, t, r)]
       | _ => []
       end) evs.

(** The clock readings recorded in a stretch of history. *)
Definition clock_reads (evs : list Event) : list Q :=
  flat_map (fun e => match e with EvTime t => [t] | _ => [] end) evs.

(** The budget that remains before the wait number [k] (from 0): the clock
    is read once before the first wait and twice after every wait; the
    first reading of each later pair, minus the reading before the wait, is
    the elapsed time that is taken off the budget. *)
Fixpoint remaining (budget : Q) (reads : list Q) (k : nat) : Q :=
  match k, reads with
  | S k', prev :: now :: reads' =>
      remaining (budget - (now - prev))%Q reads' k'
  | _, _ => budget
  end.

Definition all_true (ws : list (Client * option Q * bool)) : Prop :=
  Forall (fun x => snd x = true) ws.

(** What the spec says of a bounded wait over the clients [cs] with budget
    [T], read off the waits [ws] that were invoked, the clock [reads] and
    the result [r]. *)
Definition budget_discipline (cs : list Client) (T : Q)
    (ws : list (Client * option Q * bool)) (reads : list Q) (r : bool)
    : Prop :=
  (* the waits invoked are the first clients, in their order *)
  map (fun x => fst (fst x)) ws = take (length ws) cs /\
  (* each wait is given the budget that remains, which is not negative, and
     a wait that returns false is the last one *)
  (forall k c t ok,
     ws !! k = Some (c, t, ok) ->
     t = Some (remaining T reads k) /\
     (0 <= remaining T reads k)%Q /\
     (ok = false -> S k = length ws)) /\
  (* true exactly when every client was waited for and every wait succeeded *)
  (r = true <-> length ws = length cs /\ all_true ws) /\
  (* when no wait failed and a client was left out, the budget was negative *)
  (length ws < length cs -> all_true ws ->
   (remaining T reads (length ws) < 0)%Q).

(** One run of the loop of the bounded wait over the clients [cs], entered
    with the budget [b] and the clock reading [p]: the events it adds and
    the result. *)
Inductive shared_budget :
    list Client -> Q -> Q -> list Event -> bool -> Prop :=
  | sb_all_waited b p :
      shared_budget [] b p [] true
  | sb_exhausted c cs b p :
      (b < 0)%Q ->
      shared_budget (c :: cs) b p [] false
  | sb_wait_failed c cs b p :
      (0 <= b)%Q ->
      shared_budget (c :: cs) b p [EvWaitForService c (Some b) false] false
  | sb_wait_ok c cs b p now prev' evs r :
      (0 <= b)%Q ->
      shared_budget cs (b - (now - p))%Q prev' evs r ->
      shared_budget (c :: cs) b p
        (EvWaitForService c (Some b) true :: EvTime now :: EvTime prev' :: evs)
        r.

(** An environment where every service is there at once and the clock
    jumps from 0 to 2 once six waits have been made. *)
Definition late_env : Env := {|
  env_create_client := fun h _ _ _ _ _ => ClientHandle (length h);
  env_service_is_ready := fun _ _ => true;
  env_wait_for_service := fun _ _ _ => true;
  env_time := fun h => if (6 <=? length (waits h))%nat then 2%Q else 0%Q;
  env_call_async := fun h _ _ => FutureHandle (length h);
  env_parameter_dict_from_yaml_file := fun _ _ _ => Some []
|}.

Definition late_world : World :=
  snd (init late_env (NodeHandle 0) "example_node"
         qos_profile_services_default None blank).

(** ** Observations on a call *)

(** The registration of the completion callback on the future [f], when a
    callback was passed. *)
Definition callback_events (f : Future) (callback : option Callable)
    : list Event :=
  match callback with
  | Some cb => [EvAddDoneCallback f cb]
  | None => []
  end.

(** The history after one asynchronous call of [req] on the client [c] at
    the world [w], with the callback registered on the future returned. *)
Definition dispatched (E : Env) (c : Client) (req : Request)
    (callback : option Callable) (w : World) : Result Future * World :=
  let f := env_call_async E (history w) c req in
  (Ok f,
   {| attrs := attrs w;
      history := history w ++ EvCallAsync c req f :: callback_events f callback |}).

(** A descriptor with a name and neither type nor value: the intent to
    unset the parameter. *)
Definition unset_descriptor (i : string) : ParameterMsg :=
  {| msg_name := i; msg_type := None; msg_value := None |}.

(** The file-based bulk load in the words of the spec: the parser gives
    the mapping, and its values go through one call of the set operation. *)
Definition parse_then_set (E : Env) (parameter_file : string)
    (use_wildcard : bool) : M Future :=
  bind (parameter_dict_from_yaml_file E parameter_file use_wildcard)
       (fun param_dict => set_parameters E (map snd param_dict) None).

(** The call operations of the client, with their arguments. *)
Inductive Call :=
  | CallList (prefixes : option (list string)) (depth : Z)
      (callback : option Callable)
  | CallGet (names : list string) (callback : option Callable)
  | CallGetTypes (names : list string) (callback : option Callable)
  | CallDescribe (names : list string) (callback : option Callable)
  | CallSet (parameters : list ParameterLike) (callback : option Callable)
  | CallSetAtomically (parameters : list ParameterLike)
      (callback : option Callable)
  | CallDelete (names : list string) (callback : option Callable).

Definition perform (E : Env) (op : Call) : M Future :=
  match op with
  | CallList prefixes depth callback =>
      list_parameters E prefixes depth callback
  | CallGet names callback => get_parameters E names callback
  | CallGetTypes names callback => get_parameter_types E names callback
  | CallDescribe names callback => describe_parameters E names callback
  | CallSet parameters callback => set_parameters E parameters callback
  | CallSetAtomically parameters callback =>
      set_parameters_atomically E parameters callback
  | CallDelete names callback => delete_parameters E names callback
  end.

(** The client an operation is routed to. *)
Definition endpoint_of (eps : Endpoints) (op : Call) : Client :=
  match op with
  | CallList _ _ _ => list_client eps
  | CallGet _ _ => get_client eps
  | CallGetTypes _ _ => get_types_client eps
  | CallDescribe _ _ => describe_client eps
  | CallSet _ _ => set_client eps
  | CallSetAtomically _ _ => set_atomically_client eps
  | CallDelete _ _ => set_client eps
  end.

Definition callback_of (op : Call) : option Callable :=
  match op with
  | CallList _ _ callback
  | CallGet _ callback
  | CallGetTypes _ callback
  | CallDescribe _ callback
  | CallSet _ callback
  | CallSetAtomically _ callback
  | CallDelete _ callback => callback
  end.

(** Every method of the client but the constructor, with its arguments. *)
Inductive Method :=
  | MServiceIsReady
  | MWaitForService (timeout_sec : option Q)
  | MCall (op : Call)
  | MLoadParameterFile (parameter_file : string) (use_wildcard : bool).

(** The world a method leaves behind, whether it returns or raises. *)
Definition world_after (E : Env) (m : Method) (w : World) : World :=
  match m with
  | MServiceIsReady => snd (service_is_ready E w)
  | MWaitForService timeout_sec => snd (wait_for_service E timeout_sec w)
  | MCall op => snd (perform E op w)
  | MLoadParameterFile parameter_file use_wildcard =>
      snd (load_parameter_file E parameter_file use_wildcard w)
  end.

(** The service clients created in a stretch of history. *)
Definition created (evs : list Event) : list (ServiceType * string * Client) :=
  flat_map
    (fun e =>
       match e with
       | EvCreateClient _ t s _ _ c => [(t, s, c)]
       | _ => []
       end) evs.

(** The asynchronous calls made in a stretch of history. *)
Definition calls (evs : list Event) : list (Client * Request) :=
  flat_map
    (fun e =>
       match e with
       | EvCallAsync c req _ => [(c, req)]
       | _ => []
       end) evs.

(** A program that leaves the attributes of [self] as they were and only
    adds to the history, without creating a service client, whether it
    returns or raises. *)
Definition preserves_attrs {A} (m : M A) : Prop :=
  forall w,
    attrs (snd (m w)) = attrs w /\
    exists evs, history (snd (m w)) = history w ++ evs /\ created evs = [].

(** The world after the methods [ms], called one after the other. *)
Definition run_methods (E : Env) (ms : list Method) (w : World) : World :=
  fold_left (fun w m => world_after E m w) ms w.

(** ** Further observations *)

(** The attribute a call operation reads its client from. *)
Definition attribute_of (op : Call) : string :=
  match op with
  | CallList _ _ _ => "_list_parameter_client"
  | CallGet _ _ => "_get_parameter_client"
  | CallGetTypes _ _ => "_get_parameter_types_client"
  | CallDescribe _ _ => "_describe_parameters_client"
  | CallSet _ _ => "_set_parameter_client"
  | CallSetAtomically _ _ => "_set_parameters_atomically_client"
  | CallDelete _ _ => "_set_parameter_client"
  end.

(** The request a call operation sends, as a function of its arguments. *)
Definition request_of (op : Call) : Request :=
  match op with
  | CallList filter d _ =>
      ListParametersReq
        {| prefixes := match filter with Some p => p | None => [] end;
           depth := d |}
  | CallGet names _ => GetParametersReq names
  | CallGetTypes names _ => GetParameterTypesReq names
  | CallDescribe names _ => DescribeParametersReq names
  | CallSet parameters _ =>
      SetParametersReq (map as_parameter_msg parameters)
  | CallSetAtomically parameters _ =>
      SetParametersAtomicallyReq (map as_parameter_msg parameters)
  | CallDelete names _ => SetParametersReq (map unset_descriptor names)
  end.

(** The attributes that [service_is_ready] and [wait_for_service] read, in
    the order in which they read them. *)
Definition client_attributes : list string :=
  ["_list_parameter_client"; "_set_parameter_client";
   "_get_parameter_client"; "_get_parameter_types_client";
   "_describe_parameters_client"; "_set_parameters_atomically_client"].

(** The callbacks registered in a stretch of history, with their futures. *)
Definition registrations (evs : list Event) : list (Future * Callable) :=
  flat_map
    (fun e =>
       match e with
       | EvAddDoneCallback f cb => [(f, cb)]
       | _ => []
       end) evs.

(** The interactions a method may have with the collaborators. *)
Definition permitted (m : Method) (e : Event) : bool :=
  match m, e with
  | MServiceIsReady, EvServiceIsReady _ _ => true
  | MWaitForService None, EvWaitForService _ None _ => true
  | MWaitForService (Some _), EvWaitForService _ (Some _) _ => true
  | MWaitForService (Some _), EvTime _ => true
  | MCall _, EvCallAsync _ _ _ => true
  | MCall _, EvAddDoneCallback _ _ => true
  | MLoadParameterFile _ _, EvParameterDictFromYamlFile _ _ _ => true
  | MLoadParameterFile _ _, EvCallAsync _ _ _ => true
  | _, _ => false
  end.

(** A program that only adds events that satisfy [P] to the history. *)
Definition only_adds {A} (P : Event -> Prop) (m : M A) : Prop :=
  forall w, exists evs, history (snd (m w)) = history w ++ evs /\ Forall P evs.

(** Clock readings that never go back. *)
Fixpoint nondecreasing (reads : list Q) : Prop :=
  match reads with
  | a :: (b :: _) as reads' => (a <= b)%Q /\ nondecreasing reads'
  | _ => True
  end.

(** The number of waits that returned true. *)
Definition successes (ws : list (Client * option Q * bool)) : nat :=
  length (filter (fun x => snd x = true) ws).

(** A clock that stands still and services that are always there. *)
Definition still_env : Env := {|
  env_create_client := fun h _ _ _ _ _ => ClientHandle (length h);
  env_service_is_ready := fun _ _ => true;
  env_wait_for_service := fun _ _ _ => true;
  env_time := fun _ => 5%Q;
  env_call_async := fun h _ _ => FutureHandle (length h);
  env_parameter_dict_from_yaml_file := fun _ _ _ => None
|}.

Definition still_world : World :=
  snd (init still_env (NodeHandle 0) "example_node"
         qos_profile_services_default None blank).

(** ** Running a method step by step *)

Lemma bind_ok {A B} (m : M A) (k : A -> M B) w a w' :
  m w = (Ok a, w') -> bind m k w = k a w'.
Proof. intros H. unfold bind. rewrite H. reflexivity. Qed.

Lemma getattr_client_ok attr c w :
  attrs w !! attr = Some (VClient c) -> getattr_client attr w = (Ok c, w).
Proof. intros H. unfold getattr_client. rewrite H. reflexivity. Qed.

Lemma bind_getattr_client {B} attr c (k : Client -> M B) w :
  attrs w !! attr = Some (VClient c) ->
  bind (getattr_client attr) k w = k c w.
Proof. intros H. apply bind_ok, getattr_client_ok, H. Qed.

Lemma world_eta w : {| attrs := attrs w; history := history w |} = w.
Proof. destruct w. reflexivity. Qed.

(** Resolve the attribute look-ups and collaborator calls at the head of a
    method applied to a world. *)
Ltac step :=
  first
    [ erewrite bind_getattr_client by (simpl attrs; eassumption)
    | erewrite bind_ok by reflexivity ].

Ltac steps := repeat step.

(** ** Readiness *)

(** C2: [service_is_ready] probes the six clients (list, set, get,
    get-types, describe, set-atomically), each exactly once, and returns
    true if and only if every one of the six probes reports ready; the
    attributes of the client are left as they were. *)
Theorem service_is_ready_iff_all_six E eps w :
  constructed eps w ->
  exists b r1 r2 r3 r4 r5 r6,
    let evs :=
      [EvServiceIsReady (list_client eps) r1;
       EvServiceIsReady (set_client eps) r2;
       EvServiceIsReady (get_client eps) r3;
       EvServiceIsReady (get_types_client eps) r4;
       EvServiceIsReady (describe_client eps) r5;
       EvServiceIsReady (set_atomically_client eps) r6] in
    service_is_ready E w
      = (Ok b, {| attrs := attrs w; history := history w ++ evs |}) /\
    faithful E (history w) evs /\
    (b = true <->
     r1 = true /\ r2 = true /\ r3 = true /\ r4 = true /\ r5 = true /\
     r6 = true).
Proof.
  intros (Hl & Hs & Hg & Ht & Hd & Ha).
  unfold service_is_ready. steps.
  do 7 eexists. cbn zeta. split; [|split].
  - unfold ret, log. simpl. repeat rewrite <- app_assoc. simpl. reflexivity.
  - simpl. repeat rewrite <- app_assoc. simpl. tauto.
  - unfold all. simpl. rewrite !andb_true_iff. unfold id. tauto.
Qed.

Lemma service_is_ready_iff_all_six_witness :
  constructed demo_endpoints demo_world /\
  exists b r1 r2 r3 r4 r5 r6,
    let evs :=
      [EvServiceIsReady (list_client demo_endpoints) r1;
       EvServiceIsReady (set_client demo_endpoints) r2;
       EvServiceIsReady (get_client demo_endpoints) r3;
       EvServiceIsReady (get_types_client demo_endpoints) r4;
       EvServiceIsReady (describe_client demo_endpoints) r5;
       EvServiceIsReady (set_atomically_client demo_endpoints) r6] in
    service_is_ready demo_env demo_world
      = (Ok b, {| attrs := attrs demo_world;
                  history := history demo_world ++ evs |}) /\
    faithful demo_env (history demo_world) evs /\
    (b = true <->
     r1 = true /\ r2 = true /\ r3 = true /\ r4 = true /\ r5 = true /\
     r6 = true).
Proof.
  split.
  - repeat split; vm_compute; reflexivity.
  - apply (service_is_ready_iff_all_six demo_env demo_endpoints demo_world).
    repeat split; vm_compute; reflexivity.
Defined.

(** ** Waiting without a time-out *)

(** C5: without a time-out, [wait_for_service] invokes the six underlying
    waits, each without a time-out and whatever the earlier ones returned,
    and returns true if and only if all six returned true. *)
Theorem wait_for_service_no_timeout E eps w :
  constructed eps w ->
  exists b r1 r2 r3 r4 r5 r6,
    let evs :=
      [EvWaitForService (list_client eps) None r1;
       EvWaitForService (set_client eps) None r2;
       EvWaitForService (get_client eps) None r3;
       EvWaitForService (get_types_client eps) None r4;
       EvWaitForService (describe_client eps) None r5;
       EvWaitForService (set_atomically_client eps) None r6] in
    wait_for_service E None w
      = (Ok b, {| attrs := attrs w; history := history w ++ evs |}) /\
    faithful E (history w) evs /\
    (b = true <->
     r1 = true /\ r2 = true /\ r3 = true /\ r4 = true /\ r5 = true /\
     r6 = true).
Proof.
  intros (Hl & Hs & Hg & Ht & Hd & Ha).
  unfold wait_for_service. steps.
  do 7 eexists. cbn zeta. split; [|split].
  - unfold ret, log. simpl. repeat rewrite <- app_assoc. simpl. reflexivity.
  - simpl. repeat rewrite <- app_assoc. simpl. tauto.
  - unfold all. simpl. rewrite !andb_true_iff. unfold id. tauto.
Qed.

Lemma wait_for_service_no_timeout_witness :
  constructed demo_endpoints demo_world /\
  exists b r1 r2 r3 r4 r5 r6,
    let evs :=
      [EvWaitForService (list_client demo_endpoints) None r1;
       EvWaitForService (set_client demo_endpoints) None r2;
       EvWaitForService (get_client demo_endpoints) None r3;
       EvWaitForService (get_types_client demo_endpoints) None r4;
       EvWaitForService (describe_client demo_endpoints) None r5;
       EvWaitForService (set_atomically_client demo_endpoints) None r6] in
    wait_for_service demo_env None demo_world
      = (Ok b, {| attrs := attrs demo_world;
                  history := history demo_world ++ evs |}) /\
    faithful demo_env (history demo_world) evs /\
    (b = true <->
     r1 = true /\ r2 = true /\ r3 = true /\ r4 = true /\ r5 = true /\
     r6 = true).
Proof.
  split.
  - repeat split; vm_compute; reflexivity.
  - apply (wait_for_service_no_timeout demo_env demo_endpoints demo_world).
    repeat split; vm_compute; reflexivity.
Defined.

(** ** Waiting with a time-out *)

(** C10: with a negative time-out, [wait_for_service] reads the clock once
    and returns false; none of the six underlying waits is invoked. *)
Theorem wait_for_service_negative_timeout E eps w (T : Q) :
  constructed eps w ->
  (T < 0)%Q ->
  wait_for_service E (Some T) w
    = (Ok false,
       {| attrs := attrs w;
          history := history w ++ [EvTime (env_time E (history w))] |}).
Proof.
  intros (Hl & Hs & Hg & Ht & Hd & Ha) Hneg.
  unfold wait_for_service. steps. simpl.
  destruct (Qlt_le_dec T 0) as [_|Hge]; [reflexivity|].
  exfalso. apply (Qlt_not_le _ _ Hneg Hge).
Qed.

Lemma wait_for_service_negative_timeout_witness :
  constructed demo_endpoints demo_world /\
  (- (1 # 2) < 0)%Q /\
  wait_for_service demo_env (Some (- (1 # 2))%Q) demo_world
    = (Ok false,
       {| attrs := attrs demo_world;
          history := history demo_world ++
            [EvTime (env_time demo_env (history demo_world))] |}).
Proof.
  split; [repeat split; vm_compute; reflexivity|].
  split; [reflexivity|].
  apply (wait_for_service_negative_timeout demo_env demo_endpoints).
  - repeat split; vm_compute; reflexivity.
  - reflexivity.
Defined.

Lemma wait_loop_run E cs : forall b p w,
  exists r evs,
    wait_loop E cs b p w
      = (Ok r, {| attrs := attrs w; history := history w ++ evs |}) /\
    faithful E (history w) evs /\
    shared_budget cs b p evs r.
Proof.
  induction cs as [|c cs IH]; intros b p w; simpl.
  - exists true, []. unfold ret. rewrite app_nil_r, world_eta.
    repeat split. constructor.
  - destruct (Qlt_le_dec b 0) as [Hneg|Hge].
    + exists false, []. unfold ret. rewrite app_nil_r, world_eta.
      repeat split. now constructor.
    + step.
      destruct (env_wait_for_service E (history w) c (Some b)) eqn:Hok; simpl.
      * steps.
        match goal with
        | |- context [wait_loop E cs ?b' ?p' ?w'] =>
            destruct (IH b' p' w') as (r & evs & Hrun & Hf & Hsb)
        end.
        unfold log in *. simpl in *.
        repeat rewrite <- app_assoc in *. simpl in *.
        eexists r, (_ :: _ :: _ :: evs).
        split; [|split].
        -- rewrite Hrun. reflexivity.
        -- simpl. repeat rewrite <- app_assoc. simpl.
           rewrite Hok. repeat split. exact Hf.
        -- now constructor.
      * exists false, [EvWaitForService c (Some b) false].
        unfold ret, log. simpl. rewrite Hok. repeat split.
        now constructor.
Qed.

Lemma all_true_cons c t ok ws :
  all_true ((c, t, ok) :: ws) <-> ok = true /\ all_true ws.
Proof. unfold all_true. rewrite Forall_cons. simpl. tauto. Qed.

Lemma shared_budget_discipline cs b p evs r :
  shared_budget cs b p evs r ->
  budget_discipline cs b (waits evs) (p :: clock_reads evs) r.
Proof.
  induction 1 as [b p|c cs b p Hneg|c cs b p Hge
                 |c cs b p now prev' evs r Hge Hsb IH];
    unfold budget_discipline; simpl.
  - split; [reflexivity|]. split; [|split].
    + intros k c t ok Hk. destruct k; discriminate Hk.
    + split; [split; [reflexivity|constructor]|reflexivity].
    + intros Hlt. inversion Hlt.
  - split; [reflexivity|]. split; [|split].
    + intros k c' t ok Hk. destruct k; discriminate Hk.
    + split; [discriminate|]. intros [Hlen _]. discriminate Hlen.
    + intros _ _. exact Hneg.
  - split; [reflexivity|]. split; [|split].
    + intros [|k] c' t ok Hk; simpl in Hk; [|destruct k; discriminate Hk].
      injection Hk as <- <- <-. auto.
    + split; [discriminate|]. intros [_ Hall].
      apply all_true_cons in Hall as [Hall _]. discriminate Hall.
    + intros _ Hall. apply all_true_cons in Hall as [Hall _].
      discriminate Hall.
  - destruct IH as (IH1 & IH2 & IH3 & IH4).
    split; [|split; [|split]].
    + f_equal. exact IH1.
    + intros [|k] c' t ok Hk; simpl in Hk.
      * injection Hk as <- <- <-. repeat split; auto. discriminate.
      * destruct (IH2 k c' t ok Hk) as (Ht & Hpos & Hlast).
        repeat split; auto.
    + rewrite all_true_cons, IH3. split.
      * intros [Hlen Hall]. auto.
      * intros [Hlen [_ Hall]]. split; [congruence|exact Hall].
    + intros Hlt Hall. apply all_true_cons in Hall as [_ Hall].
      apply IH4; [lia|exact Hall].
Qed.

(** C1 (amended): with a time-out [T], [wait_for_service] visits the six
    underlying waits in order under a shared budget.  Each wait that is
    invoked is given the budget that remains, [T] minus the elapsed times
    measured around the earlier waits, and that budget is not negative; a
    wait that returns false is the last one invoked; the result is true
    exactly when all six waits were invoked and returned true; when no wait
    failed and a client was left out, the budget before its wait was
    negative.  The budget that remains after the sixth wait is not looked
    at.  In particular, when the first wait consumes more than [T], at most
    that one wait is invoked and the result is false. *)
Theorem wait_for_service_shared_budget E eps w (T : Q) :
  constructed eps w ->
  exists r evs,
    wait_for_service E (Some T) w
      = (Ok r, {| attrs := attrs w; history := history w ++ evs |}) /\
    faithful E (history w) evs /\
    budget_discipline (visit_order eps) T (waits evs) (clock_reads evs) r /\
    (let t0 := env_time E (history w) in
     let h1 := history w ++ [EvTime t0] in
     let r1 := env_wait_for_service E h1 (list_client eps) (Some T) in
     let t1 :=
       env_time E (h1 ++ [EvWaitForService (list_client eps) (Some T) r1]) in
     (T < t1 - t0)%Q -> length (waits evs) <= 1 /\ r = false).
Proof.
  intros (Hl & Hs & Hg & Ht & Hd & Ha).
  unfold wait_for_service. steps.
  set (t0 := env_time E (history w)).
  destruct (wait_loop_run E (visit_order eps) T t0 (log (EvTime t0) w))
    as (r & evs & Hrun & Hf & Hsb).
  unfold visit_order in Hrun. rewrite Hrun.
  exists r, (EvTime t0 :: evs). simpl in *.
  split; [rewrite <- app_assoc; reflexivity|].
  split; [split; [reflexivity|exact Hf]|].
  split; [exact (shared_budget_discipline _ _ _ _ _ Hsb)|].
  intros Hlate. unfold visit_order in Hsb.
  inversion Hsb as [| | |c cs b p now prev' evs' r' Hge Hsb']; subst; simpl.
  - auto.
  - auto.
  - destruct Hf as (Hr1 & Hnow & _). simpl in Hnow.
    rewrite <- Hr1, <- app_assoc in Hlate. simpl in Hlate.
    rewrite <- app_assoc in Hnow. simpl in Hnow.
    rewrite <- Hnow in Hlate.
    inversion Hsb' as [|? ? ? ? Hneg|? ? ? ? Hge'|? ? ? ? ? ? ? ? Hge' _];
      subst; simpl; try (exfalso; lra).
    auto.
Qed.

Lemma wait_for_service_shared_budget_witness :
  constructed demo_endpoints demo_world /\
  exists r evs,
    wait_for_service demo_env (Some 1%Q) demo_world
      = (Ok r, {| attrs := attrs demo_world;
                  history := history demo_world ++ evs |}) /\
    faithful demo_env (history demo_world) evs /\
    budget_discipline (visit_order demo_endpoints) 1%Q
      (waits evs) (clock_reads evs) r.
Proof.
  split; [repeat split; vm_compute; reflexivity|].
  destruct (wait_for_service_shared_budget demo_env demo_endpoints
              demo_world 1%Q) as (r & evs & Hrun & Hf & Hd & _).
  - repeat split; vm_compute; reflexivity.
  - exists r, evs. auto.
Defined.

(** C1, as stated, fails: every service is there at once and the sixth
    wait ends after the budget of one second has run out.  The budget that
    remains after the sixth wait is negative, and the call returns true. *)
Lemma wait_for_service_true_on_exhausted_budget :
  let run := wait_for_service late_env (Some 1%Q) late_world in
  let evs := drop (length (history late_world)) (history (snd run)) in
  fst run = Ok true /\
  length (waits evs) = 6 /\
  (remaining 1 (clock_reads evs) 6 < 0)%Q.
Proof. vm_compute. repeat split; reflexivity. Qed.

(** ** The request wrappers *)

Lemma dispatch_run E attr c req callback w :
  attrs w !! attr = Some (VClient c) ->
  (c <- getattr_client attr ;;
   future <- call_async E c req ;;
   match callback with
   | Some cb => add_done_callback future cb
   | None => ret tt
   end ;;
   ret future) w
  = dispatched E c req callback w.
Proof.
  intros H. step. step. unfold dispatched.
  destruct callback as [cb|]; step; unfold ret, log; simpl.
  - rewrite <- app_assoc. reflexivity.
  - reflexivity.
Qed.

(** C6: [get_parameters] and [get_parameter_types] each make exactly one
    asynchronous call, on the get-parameters client and on the
    get-parameter-types client, with a request whose names are the
    argument [N] as it was passed. *)
Theorem get_parameters_and_types_dispatch E eps w (N : list string) callback :
  constructed eps w ->
  get_parameters E N callback w
    = dispatched E (get_client eps) (GetParametersReq N) callback w /\
  get_parameter_types E N callback w
    = dispatched E (get_types_client eps) (GetParameterTypesReq N) callback w.
Proof.
  intros (Hl & Hs & Hg & Ht & Hd & Ha). split.
  - unfold get_parameters. apply dispatch_run, Hg.
  - unfold get_parameter_types. apply dispatch_run, Ht.
Qed.

Lemma get_parameters_and_types_dispatch_witness :
  constructed demo_endpoints demo_world /\
  get_parameters demo_env ["int_param"; "string/param"] None demo_world
    = dispatched demo_env (get_client demo_endpoints)
        (GetParametersReq ["int_param"; "string/param"]) None demo_world /\
  get_parameter_types demo_env ["int_param"; "string/param"] None demo_world
    = dispatched demo_env (get_types_client demo_endpoints)
        (GetParameterTypesReq ["int_param"; "string/param"]) None demo_world.
Proof.
  split; [repeat split; vm_compute; reflexivity|].
  apply (get_parameters_and_types_dispatch demo_env demo_endpoints).
  repeat split; vm_compute; reflexivity.
Defined.

(** C7: [list_parameters] sends, on the list-parameters client, a request
    whose prefixes are the ones passed, or the empty sequence a fresh
    request starts with when the prefixes are omitted or empty (the two
    give the same run), and whose depth is the argument as it was passed,
    whatever integer it is; with the prefixes omitted and the default depth
    the request has no prefixes and depth 1. *)
Theorem list_parameters_request E eps w (filter : option (list string))
    (d : Z) callback :
  constructed eps w ->
  list_parameters E filter d callback w
    = dispatched E (list_client eps)
        (ListParametersReq
           {| prefixes := match filter with Some p => p | None => [] end;
              depth := d |})
        callback w /\
  list_parameters E (Some []) d callback w
    = list_parameters E None d callback w /\
  list_parameters E None d callback w
    = dispatched E (list_client eps)
        (ListParametersReq
           {| prefixes := prefixes ListParameters_Request;
              depth := d |})
        callback w /\
  list_parameters E None depth_default callback w
    = dispatched E (list_client eps)
        (ListParametersReq {| prefixes := []; depth := 1 |}) callback w.
Proof.
  intros (Hl & Hs & Hg & Ht & Hd & Ha).
  split; [|split; [reflexivity|split]].
  - unfold list_parameters.
    destruct filter as [[|p ps]|]; apply dispatch_run, Hl.
  - unfold list_parameters. apply dispatch_run, Hl.
  - unfold list_parameters. apply dispatch_run, Hl.
Qed.

Lemma list_parameters_request_witness :
  constructed demo_endpoints demo_world /\
  list_parameters demo_env None (-3) None demo_world
    = dispatched demo_env (list_client demo_endpoints)
        (ListParametersReq {| prefixes := []; depth := -3 |})
        None demo_world.
Proof.
  split; [repeat split; vm_compute; reflexivity|].
  apply (list_parameters_request demo_env demo_endpoints demo_world None (-3)).
  repeat split; vm_compute; reflexivity.
Defined.

(** C3: for every list of names [N], empty or not, [delete_parameters]
    sends on the set-parameters client one descriptor per name, in the
    order of [N], each with that name and neither type nor value; the run
    is the run of [set_parameters] on those descriptors. *)
Theorem delete_parameters_as_set E eps w (N : list string) callback :
  constructed eps w ->
  delete_parameters E N callback w
    = dispatched E (set_client eps)
        (SetParametersReq (map unset_descriptor N)) callback w /\
  delete_parameters E N callback w
    = set_parameters E (map (fun i => inr (unset_descriptor i)) N) callback w.
Proof.
  intros (Hl & Hs & Hg & Ht & Hd & Ha). split.
  - unfold delete_parameters. apply dispatch_run, Hs.
  - unfold delete_parameters, set_parameters.
    rewrite map_map. reflexivity.
Qed.

Lemma delete_parameters_as_set_witness :
  constructed demo_endpoints demo_world /\
  delete_parameters demo_env ["int_param"; "string/param"] None demo_world
    = dispatched demo_env (set_client demo_endpoints)
        (SetParametersReq
           [unset_descriptor "int_param"; unset_descriptor "string/param"])
        None demo_world.
Proof.
  split; [repeat split; vm_compute; reflexivity|].
  apply (delete_parameters_as_set demo_env demo_endpoints demo_world
           ["int_param"; "string/param"] None).
  repeat split; vm_compute; reflexivity.
Defined.

Lemma as_parameter_msg_lookup (P : list ParameterLike) k :
  (forall m, P !! k = Some (inr m) ->
     map as_parameter_msg P !! k = Some m) /\
  (forall p, P !! k = Some (inl p) ->
     exists m, map as_parameter_msg P !! k = Some m /\
       msg_name m = name p /\ msg_type m = type_ p /\
       msg_value m = value p).
Proof.
  change (map as_parameter_msg P) with (as_parameter_msg <$> P).
  rewrite list_lookup_fmap. split.
  - intros m H. rewrite H. reflexivity.
  - intros p H. exists (to_parameter_msg p). rewrite H. repeat split.
Qed.

(** C4: [set_parameters] and [set_parameters_atomically] send, each on its
    own client, a request with one descriptor per element of [P], in the
    order of [P]: an element that is a descriptor already is sent as it
    is, an element that is a rich value is sent as a descriptor with the
    same name, type and value. *)
Theorem set_parameters_normalizes E eps w (P : list ParameterLike) callback :
  constructed eps w ->
  exists descriptors,
    set_parameters E P callback w
      = dispatched E (set_client eps) (SetParametersReq descriptors)
          callback w /\
    set_parameters_atomically E P callback w
      = dispatched E (set_atomically_client eps)
          (SetParametersAtomicallyReq descriptors) callback w /\
    length descriptors = length P /\
    (forall k m, P !! k = Some (inr m) -> descriptors !! k = Some m) /\
    (forall k p, P !! k = Some (inl p) ->
       exists m, descriptors !! k = Some m /\
         msg_name m = name p /\ msg_type m = type_ p /\
         msg_value m = value p) /\
    (forall D, P = map inr D -> descriptors = D).
Proof.
  intros (Hl & Hs & Hg & Ht & Hd & Ha).
  exists (map as_parameter_msg P).
  split; [unfold set_parameters; apply dispatch_run, Hs|].
  split; [unfold set_parameters_atomically; apply dispatch_run, Ha|].
  split; [apply length_map|].
  split; [intros k; apply as_parameter_msg_lookup|].
  split; [intros k; apply as_parameter_msg_lookup|].
  intros D ->. rewrite map_map. simpl. apply map_id.
Qed.

Lemma set_parameters_normalizes_witness :
  constructed demo_endpoints demo_world /\
  exists descriptors,
    set_parameters demo_env
      [inl (mkRclpyParameter "int_param" (Some INTEGER) (Some (PInteger 88)));
       inr (mkParameterMsg "string/param" (Some STRING)
              (Some (PString "hello world")))]
      None demo_world
      = dispatched demo_env (set_client demo_endpoints)
          (SetParametersReq descriptors) None demo_world /\
    length descriptors = 2.
Proof.
  split; [repeat split; vm_compute; reflexivity|].
  destruct (set_parameters_normalizes demo_env demo_endpoints demo_world
    [inl (mkRclpyParameter "int_param" (Some INTEGER) (Some (PInteger 88)));
     inr (mkParameterMsg "string/param" (Some STRING)
            (Some (PString "hello world")))] None)
    as (ds & Hset & _ & Hlen & _).
  - repeat split; vm_compute; reflexivity.
  - exists ds. split; [exact Hset|exact Hlen].
Defined.

(** ** Loading a parameter file *)

Lemma bind_ret_id {A} (m : M A) w : bind m (fun a => ret a) w = m w.
Proof. unfold bind, ret. destruct (m w) as [[a|e] w']; reflexivity. Qed.

(** C8: [load_parameter_file] is the parser followed by [set_parameters]:
    when the parser gives a mapping, its values, in the order of the
    mapping, go through one call of [set_parameters] without callback, which
    makes one call on the set-parameters client, and the future of that
    call is returned; when the parser raises, nothing is sent. *)
Theorem load_parameter_file_is_parse_then_set E eps w file wildcard :
  constructed eps w ->
  load_parameter_file E file wildcard w = parse_then_set E file wildcard w /\
  let r := env_parameter_dict_from_yaml_file E (history w) file wildcard in
  let w1 := log (EvParameterDictFromYamlFile file wildcard r) w in
  match r with
  | Some param_dict =>
      load_parameter_file E file wildcard w
        = set_parameters E (map snd param_dict) None w1 /\
      load_parameter_file E file wildcard w
        = dispatched E (set_client eps)
            (SetParametersReq (map as_parameter_msg (map snd param_dict)))
            None w1
  | None =>
      load_parameter_file E file wildcard w
        = (Raise (ParameterFileError file), w1)
  end.
Proof.
  intros (Hl & Hs & Hg & Ht & Hd & Ha).
  assert (Hcomp : load_parameter_file E file wildcard w
                  = parse_then_set E file wildcard w).
  { unfold load_parameter_file, parse_then_set, bind at 1 3.
    destruct (parameter_dict_from_yaml_file E file wildcard w)
      as [[d|e] w']; [apply bind_ret_id|reflexivity]. }
  split; [exact Hcomp|]. cbn zeta. rewrite Hcomp.
  unfold parse_then_set, bind, parameter_dict_from_yaml_file.
  destruct (env_parameter_dict_from_yaml_file E (history w) file wildcard)
    as [d|]; [|reflexivity].
  split; [reflexivity|].
  apply (dispatch_run E "_set_parameter_client" (set_client eps) _ None).
  exact Hs.
Qed.

Lemma load_parameter_file_is_parse_then_set_witness :
  constructed demo_endpoints demo_world /\
  calls (drop (length (history demo_world))
           (history (snd (load_parameter_file demo_env "params.yaml" false
                            demo_world))))
  = [(set_client demo_endpoints,
      SetParametersReq
        [mkParameterMsg "int_param" (Some INTEGER) (Some (PInteger 88));
         mkParameterMsg "string/param" (Some STRING)
           (Some (PString "hello world"))])].
Proof.
  split; [repeat split; vm_compute; reflexivity|].
  destruct (load_parameter_file_is_parse_then_set demo_env demo_endpoints
              demo_world "params.yaml" false) as [_ H].
  - repeat split; vm_compute; reflexivity.
  - cbn zeta in H. simpl env_parameter_dict_from_yaml_file in H.
    destruct H as [_ H]. rewrite H. vm_compute. reflexivity.
Defined.

(** ** The attributes of the client are written by the constructor only *)

Lemma created_app evs1 evs2 :
  created (evs1 ++ evs2) = created evs1 ++ created evs2.
Proof. unfold created. apply flat_map_app. Qed.

Lemma preserves_silent {A} (m : M A) :
  (forall w, snd (m w) = w) -> preserves_attrs m.
Proof.
  intros H w. rewrite H. split; [reflexivity|].
  exists []. rewrite app_nil_r. split; reflexivity.
Qed.

Lemma preserves_logged {A} (m : M A) (e : World -> Event) :
  (forall w, snd (m w) = log (e w) w) ->
  (forall w, created [e w] = []) ->
  preserves_attrs m.
Proof.
  intros H Hc w. rewrite H. split; [reflexivity|].
  exists [e w]. split; [reflexivity|apply Hc].
Qed.

Lemma preserves_ret {A} (a : A) : preserves_attrs (ret a).
Proof. apply preserves_silent. reflexivity. Qed.

Lemma preserves_bind {A B} (m : M A) (k : A -> M B) :
  preserves_attrs m -> (forall a, preserves_attrs (k a)) ->
  preserves_attrs (bind m k).
Proof.
  intros Hm Hk w. unfold bind.
  destruct (Hm w) as (Ha & evs & Hh & Hc).
  destruct (m w) as [[a|e] w']; simpl in *.
  - destruct (Hk a w') as (Ha' & evs' & Hh' & Hc').
    split; [congruence|].
    exists (evs ++ evs'). rewrite Hh', Hh, <- app_assoc, created_app, Hc, Hc'.
    split; reflexivity.
  - split; [exact Ha|]. exists evs. split; assumption.
Qed.

Lemma preserves_getattr_client attr : preserves_attrs (getattr_client attr).
Proof.
  apply preserves_silent. intros w. unfold getattr_client.
  destruct (attrs w !! attr) as [[| |]|]; reflexivity.
Qed.

Lemma preserves_client_service_is_ready E c :
  preserves_attrs (client_service_is_ready E c).
Proof.
  apply (preserves_logged _
    (fun w => EvServiceIsReady c (env_service_is_ready E (history w) c)));
    reflexivity.
Qed.

Lemma preserves_client_wait_for_service E c t :
  preserves_attrs (client_wait_for_service E c t).
Proof.
  apply (preserves_logged _
    (fun w => EvWaitForService c t (env_wait_for_service E (history w) c t)));
    reflexivity.
Qed.

Lemma preserves_time_time E : preserves_attrs (time_time E).
Proof.
  apply (preserves_logged _ (fun w => EvTime (env_time E (history w))));
    reflexivity.
Qed.

Lemma preserves_call_async E c req : preserves_attrs (call_async E c req).
Proof.
  apply (preserves_logged _
    (fun w => EvCallAsync c req (env_call_async E (history w) c req)));
    reflexivity.
Qed.

Lemma preserves_callback (f : Future) (callback : option Callable) :
  preserves_attrs
    match callback with
    | Some cb => add_done_callback f cb
    | None => ret tt
    end.
Proof.
  destruct callback as [cb|]; [|apply preserves_ret].
  apply (preserves_logged _ (fun _ => EvAddDoneCallback f cb)); reflexivity.
Qed.

Lemma preserves_parameter_dict_from_yaml_file E file wildcard :
  preserves_attrs (parameter_dict_from_yaml_file E file wildcard).
Proof.
  apply (preserves_logged _
    (fun w => EvParameterDictFromYamlFile file wildcard
                (env_parameter_dict_from_yaml_file E (history w) file wildcard)));
    [|reflexivity].
  intros w. unfold parameter_dict_from_yaml_file.
  destruct (env_parameter_dict_from_yaml_file E (history w) file wildcard);
    reflexivity.
Qed.

Create HintDb frame.
#[local] Hint Resolve preserves_ret preserves_bind preserves_getattr_client
  preserves_client_service_is_ready preserves_client_wait_for_service
  preserves_time_time preserves_call_async preserves_callback
  preserves_parameter_dict_from_yaml_file : frame.

Lemma preserves_comprehension {A B} (f : A -> M B) l :
  (forall x, preserves_attrs (f x)) -> preserves_attrs (comprehension f l).
Proof. intros Hf. induction l; simpl; auto 10 with frame. Qed.

Lemma preserves_wait_loop E cs : forall b p,
  preserves_attrs (wait_loop E cs b p).
Proof.
  induction cs as [|c cs IH]; intros b p; simpl; auto with frame.
  destruct (Qlt_le_dec b 0); auto with frame.
  apply preserves_bind; auto with frame.
  intros [|]; simpl; auto 10 with frame.
Qed.

Lemma preserves_perform E op : preserves_attrs (perform E op).
Proof.
  destruct op; simpl;
    unfold list_parameters, get_parameters, get_parameter_types,
      describe_parameters, set_parameters, set_parameters_atomically,
      delete_parameters; cbv zeta; auto 10 with frame.
Qed.

Lemma preserves_service_is_ready E : preserves_attrs (service_is_ready E).
Proof. unfold service_is_ready. auto 30 with frame. Qed.

Lemma preserves_wait_for_service E t : preserves_attrs (wait_for_service E t).
Proof.
  unfold wait_for_service.
  repeat (apply preserves_bind; [apply preserves_getattr_client|intros ?]).
  destruct t; cbv zeta.
  - apply preserves_bind; [auto with frame|].
    intros prev. apply preserves_wait_loop.
  - apply preserves_bind; [|auto with frame].
    apply preserves_comprehension. auto with frame.
Qed.

Lemma preserves_load_parameter_file E file wildcard :
  preserves_attrs (load_parameter_file E file wildcard).
Proof.
  unfold load_parameter_file, set_parameters. cbv zeta. auto 10 with frame.
Qed.

Lemma dispatched_calls E c req callback w :
  exists evs,
    history (snd (dispatched E c req callback w)) = history w ++ evs /\
    calls evs = [(c, req)] /\ created evs = [].
Proof.
  unfold dispatched. simpl. eexists. split; [reflexivity|].
  destruct callback; split; reflexivity.
Qed.

Lemma perform_dispatched E eps w op :
  constructed eps w ->
  exists req,
    perform E op w = dispatched E (endpoint_of eps op) req (callback_of op) w.
Proof.
  intros (Hl & Hs & Hg & Ht & Hd & Ha).
  destruct op; simpl; eexists.
  - unfold list_parameters. apply dispatch_run, Hl.
  - unfold get_parameters. apply dispatch_run, Hg.
  - unfold get_parameter_types. apply dispatch_run, Ht.
  - unfold describe_parameters. apply dispatch_run, Hd.
  - unfold set_parameters. apply dispatch_run, Hs.
  - unfold set_parameters_atomically. apply dispatch_run, Ha.
  - unfold delete_parameters. apply dispatch_run, Hs.
Qed.

Lemma bind_getattr_node {B} attr n (k : Node -> M B) w :
  attrs w !! attr = Some (VNode n) ->
  bind (getattr_node attr) k w = k n w.
Proof.
  intros H. apply bind_ok. unfold getattr_node. rewrite H. reflexivity.
Qed.

Lemma snoc6 {A} (h : list A) a b c d e f :
  (((((h ++ [a]) ++ [b]) ++ [c]) ++ [d]) ++ [e]) ++ [f]
  = h ++ [a; b; c; d; e; f].
Proof. repeat rewrite <- app_assoc. reflexivity. Qed.

Lemma bind_setattr {B} attr v (k : unit -> M B) w :
  bind (setattr attr v) k w
  = k tt {| attrs := <[attr := v]> (attrs w); history := history w |}.
Proof. reflexivity. Qed.

Lemma bind_create_client {B} E n t srv_name qos cg (k : Client -> M B) w :
  bind (create_client E n t srv_name qos cg) k w
  = k (env_create_client E (history w) n t srv_name qos cg)
      (log (EvCreateClient n t srv_name qos cg
              (env_create_client E (history w) n t srv_name qos cg)) w).
Proof. reflexivity. Qed.

(** One round of the constructor: look the node up, create a client on
    it, store the client. *)
Lemma create_and_store {B} E node attr t srv_name qos cg (k : unit -> M B) w :
  attrs w !! "node" = Some (VNode node) ->
  (n <- getattr_node "node" ;;
   c <- create_client E n t srv_name qos cg ;;
   x <- setattr attr (VClient c) ;;
   k x) w
  = k tt
      {| attrs :=
           <[attr := VClient (env_create_client E (history w) node t srv_name
                                qos cg)]> (attrs w);
         history :=
           history w ++
           [EvCreateClient node t srv_name qos cg
              (env_create_client E (history w) node t srv_name qos cg)] |}.
Proof. intros H. rewrite (bind_getattr_node _ _ _ _ H). reflexivity. Qed.

Ltac node_bound :=
  cbn [attrs]; rewrite ?lookup_insert_ne by discriminate;
  apply lookup_insert_eq.

Lemma init_constructs E node remote_node_name qos callback_group w0 :
  exists eps w',
    init E node remote_node_name qos callback_group w0 = (Ok tt, w') /\
    constructed eps w' /\
    attrs w' !! "remote_node_name" = Some (VStr remote_node_name) /\
    attrs w' !! "node" = Some (VNode node) /\
    exists evs,
      history w' = history w0 ++ evs /\
      faithful E (history w0) evs /\
      created evs =
        [(GetParameters,
          (remote_node_name ++ "/get_parameters")%string, get_client eps);
         (ListParameters,
          (remote_node_name ++ "/list_parameters")%string, list_client eps);
         (SetParameters,
          (remote_node_name ++ "/set_parameters")%string, set_client eps);
         (GetParameterTypes,
          (remote_node_name ++ "/get_parameter_types")%string,
          get_types_client eps);
         (DescribeParameters,
          (remote_node_name ++ "/describe_parameters")%string,
          describe_client eps);
         (SetParametersAtomically,
          (remote_node_name ++ "/set_parameters_atomically")%string,
          set_atomically_client eps)].
Proof.
  unfold init.
  rewrite !bind_setattr. cbn [attrs history].
  rewrite (create_and_store E node) by node_bound. cbn [attrs history].
  set (c1 := env_create_client E _ node GetParameters _ qos callback_group).
  set (e1 := EvCreateClient node GetParameters _ qos callback_group c1).
  rewrite (create_and_store E node) by node_bound. cbn [attrs history].
  set (c2 := env_create_client E _ node ListParameters _ qos callback_group).
  set (e2 := EvCreateClient node ListParameters _ qos callback_group c2).
  rewrite (create_and_store E node) by node_bound. cbn [attrs history].
  set (c3 := env_create_client E _ node SetParameters _ qos callback_group).
  set (e3 := EvCreateClient node SetParameters _ qos callback_group c3).
  rewrite (create_and_store E node) by node_bound. cbn [attrs history].
  set (c4 := env_create_client E _ node GetParameterTypes _ qos
               callback_group).
  set (e4 := EvCreateClient node GetParameterTypes _ qos callback_group c4).
  rewrite (create_and_store E node) by node_bound. cbn [attrs history].
  set (c5 := env_create_client E _ node DescribeParameters _ qos
               callback_group).
  set (e5 := EvCreateClient node DescribeParameters _ qos callback_group c5).
  erewrite bind_getattr_node by node_bound.
  rewrite bind_create_client.
  unfold setattr, log. cbn [attrs history].
  set (c6 := env_create_client E _ node SetParametersAtomically _ qos
               callback_group).
  set (e6 := EvCreateClient node SetParametersAtomically _ qos callback_group
               c6).
  exists (mkEndpoints c2 c3 c1 c4 c5 c6). eexists.
  split; [reflexivity|].
  split; [|split; [|split]].
  - unfold constructed. cbn [attrs list_client set_client get_client
      get_types_client describe_client set_atomically_client].
    repeat split; node_bound.
  - node_bound.
  - node_bound.
  - exists [e1; e2; e3; e4; e5; e6]. cbn [history].
    split; [apply snoc6|].
    split; [|reflexivity].
    unfold e1, e2, e3, e4, e5, e6. cbn [faithful answers].
    repeat split; reflexivity.
Qed.

Lemma preserves_world_after E m w :
  attrs (world_after E m w) = attrs w /\
  exists evs, history (world_after E m w) = history w ++ evs /\ created evs = [].
Proof.
  destruct m as [|t|op|file wildcard]; simpl.
  - apply preserves_service_is_ready.
  - apply preserves_wait_for_service.
  - apply preserves_perform.
  - apply preserves_load_parameter_file.
Qed.

Lemma preserves_run_methods E ms : forall w,
  attrs (run_methods E ms w) = attrs w /\
  exists evs, history (run_methods E ms w) = history w ++ evs /\ created evs = [].
Proof.
  induction ms as [|m ms IH]; intros w; simpl.
  - split; [reflexivity|]. exists []. rewrite app_nil_r. auto.
  - destruct (preserves_world_after E m w) as (Ha & evs & Hh & Hc).
    destruct (IH (world_after E m w)) as (Ha' & evs' & Hh' & Hc').
    unfold run_methods in *. split; [congruence|].
    exists (evs ++ evs'). rewrite Hh', Hh, <- app_assoc, created_app, Hc, Hc'.
    auto.
Qed.

(** C9: the constructor creates the six service clients, one call of
    [create_client] each, and stores them; whatever methods are called
    afterwards, the attributes of the client stay as the constructor left
    them and no further client is created; and each of the call operations
    (list, get, get-types, describe, set, set-atomically, delete) then makes
    exactly one asynchronous call, on its own client, registers the
    callback on the future of that call when one was passed, and leaves
    the attributes as they were. *)
Theorem endpoints_fixed_and_one_dispatch E node remote_node_name qos
    callback_group w0 (ms : list Method) (op : Call) :
  let w1 := snd (init E node remote_node_name qos callback_group w0) in
  let w := run_methods E ms w1 in
  exists eps,
    fst (init E node remote_node_name qos callback_group w0) = Ok tt /\
    constructed eps w1 /\
    (exists evs,
       history w1 = history w0 ++ evs /\
       created evs =
         [(GetParameters,
           (remote_node_name ++ "/get_parameters")%string, get_client eps);
          (ListParameters,
           (remote_node_name ++ "/list_parameters")%string, list_client eps);
          (SetParameters,
           (remote_node_name ++ "/set_parameters")%string, set_client eps);
          (GetParameterTypes,
           (remote_node_name ++ "/get_parameter_types")%string,
           get_types_client eps);
          (DescribeParameters,
           (remote_node_name ++ "/describe_parameters")%string,
           describe_client eps);
          (SetParametersAtomically,
           (remote_node_name ++ "/set_parameters_atomically")%string,
           set_atomically_client eps)]) /\
    attrs w = attrs w1 /\
    (exists evs, history w = history w1 ++ evs /\ created evs = []) /\
    exists req,
      perform E op w
        = dispatched E (endpoint_of eps op) req (callback_of op) w /\
      attrs (snd (perform E op w)) = attrs w /\
      exists evs,
        history (snd (perform E op w)) = history w ++ evs /\
        calls evs = [(endpoint_of eps op, req)] /\
        created evs = [].
Proof.
  intros w1 w.
  destruct (init_constructs E node remote_node_name qos callback_group w0)
    as (eps & w' & Hinit & Hcon & _ & _ & evs & Hh & _ & Hcr).
  assert (Hw1 : w1 = w') by (unfold w1; rewrite Hinit; reflexivity).
  destruct (preserves_run_methods E ms w1) as (Ha & evs' & Hh' & Hc').
  fold w in Ha, Hh'.
  assert (Hcon' : constructed eps w).
  { unfold constructed. rewrite Ha, Hw1. exact Hcon. }
  exists eps.
  split; [rewrite Hinit; reflexivity|].
  split; [rewrite Hw1; exact Hcon|].
  split; [exists evs; rewrite Hw1; split; [exact Hh|exact Hcr]|].
  split; [exact Ha|].
  split; [exists evs'; split; assumption|].
  destruct (perform_dispatched E eps w op Hcon') as (req & Hrun).
  exists req. split; [exact Hrun|].
  split; [apply preserves_perform|].
  rewrite Hrun. apply dispatched_calls.
Qed.

(** ** Further properties of the request wrappers *)

(** X1: [describe_parameters] makes exactly one asynchronous call, on the
    describe-parameters client, with a request whose names are the
    argument as it was passed, and registers the callback, when there is
    one, on the future of that call. *)
Theorem describe_parameters_dispatch E eps w (N : list string) callback :
  constructed eps w ->
  describe_parameters E N callback w
    = dispatched E (describe_client eps) (DescribeParametersReq N) callback w.
Proof.
  intros (Hl & Hs & Hg & Ht & Hd & Ha).
  unfold describe_parameters. apply dispatch_run, Hd.
Qed.

Lemma describe_parameters_dispatch_witness :
  constructed demo_endpoints demo_world /\
  describe_parameters demo_env ["int_param"] (Some (CallableHandle 7))
    demo_world
  = dispatched demo_env (describe_client demo_endpoints)
      (DescribeParametersReq ["int_param"]) (Some (CallableHandle 7))
      demo_world.
Proof.
  split; [repeat split; vm_compute; reflexivity|].
  apply (describe_parameters_dispatch demo_env demo_endpoints).
  repeat split; vm_compute; reflexivity.
Defined.

Lemma bind_getattr_client_missing {B} attr (k : Client -> M B) w :
  attrs w !! attr = None ->
  bind (getattr_client attr) k w = (Raise (AttributeError attr), w).
Proof.
  intros H. unfold bind, getattr_client. rewrite H. reflexivity.
Qed.

Lemma perform_shape E op :
  perform E op
  = (c <- getattr_client (attribute_of op) ;;
     future <- call_async E c (request_of op) ;;
     match callback_of op with
     | Some cb => add_done_callback future cb
     | None => ret tt
     end ;;
     ret future).
Proof. destruct op as [[[|p ps]|] d cb| | | | | |]; reflexivity. Qed.

Lemma perform_on_own_client E op w c :
  attrs w !! attribute_of op = Some (VClient c) ->
  perform E op w = dispatched E c (request_of op) (callback_of op) w.
Proof. intros H. rewrite perform_shape. apply dispatch_run, H. Qed.

(** X2: a call operation depends on its own client only.  When the
    attribute it reads holds a client, it sends the request built from
    its arguments on that client, whatever the other attributes are; when
    that attribute is missing, it raises an attribute error and has
    interacted with no collaborator. *)
Theorem call_needs_only_its_client E (op : Call) w :
  (forall c,
     attrs w !! attribute_of op = Some (VClient c) ->
     perform E op w = dispatched E c (request_of op) (callback_of op) w) /\
  (attrs w !! attribute_of op = None ->
   perform E op w = (Raise (AttributeError (attribute_of op)), w)).
Proof.
  split.
  - intros c H. apply perform_on_own_client, H.
  - intros H. rewrite perform_shape. apply bind_getattr_client_missing, H.
Qed.

Lemma call_needs_only_its_client_witness :
  perform demo_env (CallGet ["int_param"] None) blank
  = (Raise (AttributeError "_get_parameter_client"), blank).
Proof.
  apply (call_needs_only_its_client demo_env (CallGet ["int_param"] None)
           blank).
  reflexivity.
Defined.

Lemma dispatched_registrations E c req callback w :
  exists f rest,
    dispatched E c req callback w
      = (Ok f,
         {| attrs := attrs w;
            history := history w ++ EvCallAsync c req f :: rest |}) /\
    f = env_call_async E (history w) c req /\
    calls rest = [] /\
    registrations (EvCallAsync c req f :: rest)
      = match callback with Some cb => [(f, cb)] | None => [] end.
Proof.
  unfold dispatched. do 2 eexists. split; [reflexivity|].
  split; [reflexivity|]. destruct callback; split; reflexivity.
Qed.

(** X3: a call operation on a constructed client returns the future of
    the one call it makes; the call is the first thing it does; a callback
    that was passed is registered once, on that future and after the call,
    and without a callback nothing is registered. *)
Theorem callback_on_returned_future E eps w (op : Call) :
  constructed eps w ->
  exists f rest,
    perform E op w
      = (Ok f,
         {| attrs := attrs w;
            history :=
              history w ++
              EvCallAsync (endpoint_of eps op) (request_of op) f :: rest |}) /\
    f = env_call_async E (history w) (endpoint_of eps op) (request_of op) /\
    calls rest = [] /\
    registrations
      (EvCallAsync (endpoint_of eps op) (request_of op) f :: rest)
      = match callback_of op with Some cb => [(f, cb)] | None => [] end.
Proof.
  intros (Hl & Hs & Hg & Ht & Hd & Ha).
  assert (Hrun : perform E op w
            = dispatched E (endpoint_of eps op) (request_of op)
                (callback_of op) w).
  { apply perform_on_own_client. destruct op; assumption. }
  rewrite Hrun. apply dispatched_registrations.
Qed.

Lemma callback_on_returned_future_witness :
  constructed demo_endpoints demo_world /\
  exists f rest,
    perform demo_env
      (CallGetTypes ["int_param"] (Some (CallableHandle 7))) demo_world
      = (Ok f,
         {| attrs := attrs demo_world;
            history :=
              history demo_world ++
              EvCallAsync (get_types_client demo_endpoints)
                (GetParameterTypesReq ["int_param"]) f :: rest |}) /\
    registrations rest = [(f, CallableHandle 7)].
Proof.
  split; [repeat split; vm_compute; reflexivity|].
  destruct (callback_on_returned_future demo_env demo_endpoints demo_world
              (CallGetTypes ["int_param"] (Some (CallableHandle 7))))
    as (f & rest & Hrun & _ & _ & Hreg).
  - repeat split; vm_compute; reflexivity.
  - exists f, rest. split; [exact Hrun|exact Hreg].
Defined.

(** X4: converting the elements of the sequence to descriptors before the
    call changes nothing: [set_parameters] and [set_parameters_atomically]
    on a sequence behave as on the descriptors of its elements. *)
Theorem set_parameters_on_descriptors E (P : list ParameterLike) callback w :
  set_parameters E P callback w
    = set_parameters E (map (fun i => inr (as_parameter_msg i)) P) callback w /\
  set_parameters_atomically E P callback w
    = set_parameters_atomically E
        (map (fun i => inr (as_parameter_msg i)) P) callback w.
Proof.
  unfold set_parameters, set_parameters_atomically.
  rewrite map_map. simpl. split; reflexivity.
Qed.

Lemma bind_raises {A B} (m : M A) (k : A -> M B) w e w' :
  m w = (Raise e, w') -> bind m k w = (Raise e, w').
Proof. intros H. unfold bind. rewrite H. reflexivity. Qed.

(** X5: [load_parameter_file] calls the parser before it touches the
    client.  When the parser raises, the error of the parser is raised and
    nothing is sent, whether or not the client is constructed; when the
    parser gives a mapping and the set-parameters client is missing, the
    file has been parsed, an attribute error is raised and nothing is
    sent. *)
Theorem load_parameter_file_errors E file wildcard w :
  let r := env_parameter_dict_from_yaml_file E (history w) file wildcard in
  let w1 := log (EvParameterDictFromYamlFile file wildcard r) w in
  (r = None ->
   load_parameter_file E file wildcard w
     = (Raise (ParameterFileError file), w1)) /\
  (r <> None -> attrs w !! "_set_parameter_client" = None ->
   load_parameter_file E file wildcard w
     = (Raise (AttributeError "_set_parameter_client"), w1)).
Proof.
  cbn zeta. unfold load_parameter_file.
  destruct (env_parameter_dict_from_yaml_file E (history w) file wildcard)
    as [d|] eqn:Hr; split; try congruence.
  - intros _ H.
    erewrite bind_ok
      by (unfold parameter_dict_from_yaml_file; rewrite Hr; reflexivity).
    apply bind_raises. unfold set_parameters.
    apply bind_getattr_client_missing. exact H.
  - intros _. apply bind_raises.
    unfold parameter_dict_from_yaml_file. rewrite Hr. reflexivity.
Qed.

Lemma load_parameter_file_errors_witness :
  load_parameter_file demo_env "params.yaml" false blank
  = (Raise (AttributeError "_set_parameter_client"),
     log (EvParameterDictFromYamlFile "params.yaml" false
            (env_parameter_dict_from_yaml_file demo_env [] "params.yaml"
               false)) blank) /\
  load_parameter_file still_env "params.yaml" false still_world
  = (Raise (ParameterFileError "params.yaml"),
     log (EvParameterDictFromYamlFile "params.yaml" false None) still_world).
Proof.
  split.
  - apply (load_parameter_file_errors demo_env "params.yaml" false blank).
    + discriminate.
    + reflexivity.
  - apply (load_parameter_file_errors still_env "params.yaml" false
             still_world).
    reflexivity.
Defined.

(** ** Further properties of the bounded wait *)

Lemma bounded_wait_run E eps w (T : Q) :
  constructed eps w ->
  exists r evs,
    wait_for_service E (Some T) w
      = (Ok r,
         {| attrs := attrs w;
            history :=
              history w ++ EvTime (env_time E (history w)) :: evs |}) /\
    faithful E (history w ++ [EvTime (env_time E (history w))]) evs /\
    shared_budget (visit_order eps) T (env_time E (history w)) evs r.
Proof.
  intros (Hl & Hs & Hg & Ht & Hd & Ha).
  unfold wait_for_service. steps.
  set (t0 := env_time E (history w)).
  destruct (wait_loop_run E (visit_order eps) T t0 (log (EvTime t0) w))
    as (r & evs & Hrun & Hf & Hsb).
  unfold visit_order in Hrun. rewrite Hrun.
  exists r, evs. simpl in *.
  split; [rewrite <- app_assoc; reflexivity|].
  split; [exact Hf|exact Hsb].
Qed.

(** X6: a time-out that is not negative, zero included, reaches the first
    underlying wait whole: after one clock reading, the list-parameters
    client is waited for with exactly [T]; when that wait fails, nothing
    else happens and the result is false. *)
Theorem first_wait_gets_whole_timeout E eps w (T : Q) :
  constructed eps w ->
  (0 <= T)%Q ->
  exists r rest,
    let t0 := env_time E (history w) in
    let r1 :=
      env_wait_for_service E (history w ++ [EvTime t0]) (list_client eps)
        (Some T) in
    wait_for_service E (Some T) w
      = (Ok r,
         {| attrs := attrs w;
            history :=
              history w ++
              EvTime t0 :: EvWaitForService (list_client eps) (Some T) r1
              :: rest |}) /\
    (r1 = false -> r = false /\ rest = []).
Proof.
  intros Hcon Hge.
  destruct (bounded_wait_run E eps w T Hcon) as (r & evs & Hrun & Hf & Hsb).
  unfold visit_order in Hsb.
  inversion Hsb as [|? ? ? ? Hneg|? ? ? ? _|? ? ? ? now prev' evs' ? _ _];
    subst.
  - exfalso. lra.
  - destruct Hf as (Hr1 & _). exists false, []. cbn zeta.
    rewrite <- Hr1. split; [exact Hrun|]. auto.
  - destruct Hf as (Hr1 & _). exists r, (EvTime now :: EvTime prev' :: evs').
    cbn zeta. rewrite <- Hr1. split; [exact Hrun|]. discriminate.
Qed.

Lemma first_wait_gets_whole_timeout_witness :
  constructed demo_endpoints demo_world /\
  (0 <= 0)%Q /\
  exists r rest,
    wait_for_service demo_env (Some 0%Q) demo_world
      = (Ok r,
         {| attrs := attrs demo_world;
            history :=
              history demo_world ++
              EvTime (env_time demo_env (history demo_world))
              :: EvWaitForService (list_client demo_endpoints) (Some 0%Q) true
              :: rest |}).
Proof.
  split; [repeat split; vm_compute; reflexivity|].
  split; [discriminate|].
  destruct (first_wait_gets_whole_timeout demo_env demo_endpoints demo_world
              0%Q) as (r & rest & Hrun & _).
  - repeat split; vm_compute; reflexivity.
  - discriminate.
  - exists r, rest. exact Hrun.
Defined.

Lemma nondecreasing_tail a reads :
  nondecreasing (a :: reads) -> nondecreasing reads.
Proof. destruct reads as [|b reads]; simpl; tauto. Qed.

Lemma remaining_le reads : forall k b,
  nondecreasing reads -> (remaining b reads k <= b)%Q.
Proof.
  induction reads as [reads IH] using (induction_ltof1 _ (@length Q)).
  unfold ltof in IH.
  intros k b Hnd.
  destruct reads as [|p [|n reads']]; destruct k as [|k]; simpl;
    try apply Qle_refl.
  destruct Hnd as [Hpn Hnd]. apply nondecreasing_tail in Hnd.
  apply Qle_trans with (b - (n - p))%Q.
  - apply IH; [simpl; lia|exact Hnd].
  - lra.
Qed.

Lemma remaining_step reads : forall k b,
  nondecreasing reads ->
  (remaining b reads (S k) <= remaining b reads k)%Q.
Proof.
  induction reads as [reads IH] using (induction_ltof1 _ (@length Q)).
  unfold ltof in IH.
  intros k b Hnd.
  destruct reads as [|p [|n reads']]; try (destruct k; apply Qle_refl).
  destruct k as [|k].
  - apply (remaining_le (p :: n :: reads') 1 b Hnd).
  - destruct Hnd as [Hpn Hnd]. apply nondecreasing_tail in Hnd.
    change (remaining (b - (n - p)) reads' (S k)
            <= remaining (b - (n - p)) reads' k)%Q.
    apply IH; [simpl; lia|exact Hnd].
Qed.

Lemma remaining_antitone reads b j k :
  nondecreasing reads -> j <= k ->
  (remaining b reads k <= remaining b reads j)%Q.
Proof.
  intros Hnd Hjk. induction Hjk as [|k Hjk IH]; [apply Qle_refl|].
  apply Qle_trans with (remaining b reads k); [|exact IH].
  apply remaining_step, Hnd.
Qed.

(** X7: when the clock readings of a bounded wait never go back, the
    budget never grows: every underlying wait is given at most [T], and at
    most what any earlier wait was given. *)
Theorem budget_never_grows E eps w (T : Q) :
  constructed eps w ->
  exists r evs,
    wait_for_service E (Some T) w
      = (Ok r, {| attrs := attrs w; history := history w ++ evs |}) /\
    (nondecreasing (clock_reads evs) ->
     forall j k cj tj okj ck tk okk,
       j <= k ->
       waits evs !! j = Some (cj, Some tj, okj) ->
       waits evs !! k = Some (ck, Some tk, okk) ->
       (tk <= tj)%Q /\ (tj <= T)%Q).
Proof.
  intros Hcon.
  destruct (bounded_wait_run E eps w T Hcon) as (r & evs & Hrun & Hf & Hsb).
  exists r, (EvTime (env_time E (history w)) :: evs).
  split; [exact Hrun|].
  apply shared_budget_discipline in Hsb. destruct Hsb as (_ & Hgiven & _).
  change (waits (EvTime (env_time E (history w)) :: evs)) with (waits evs).
  change (clock_reads (EvTime (env_time E (history w)) :: evs))
    with (env_time E (history w) :: clock_reads evs).
  intros Hnd j k cj tj okj ck tk okk Hjk Hj Hk.
  destruct (Hgiven _ _ _ _ Hj) as (Htj & _).
  destruct (Hgiven _ _ _ _ Hk) as (Htk & _).
  assert (Ej : tj = remaining T (env_time E (history w) :: clock_reads evs) j)
    by congruence.
  assert (Ek : tk = remaining T (env_time E (history w) :: clock_reads evs) k)
    by congruence.
  rewrite Ej, Ek.
  split; [apply remaining_antitone|apply remaining_le]; assumption.
Qed.

Lemma budget_never_grows_witness :
  constructed demo_endpoints demo_world /\
  exists r evs,
    wait_for_service demo_env (Some 100%Q) demo_world
      = (Ok r, {| attrs := attrs demo_world;
                  history := history demo_world ++ evs |}) /\
    nondecreasing (clock_reads evs) /\
    forall j k cj tj okj ck tk okk,
      j <= k ->
      waits evs !! j = Some (cj, Some tj, okj) ->
      waits evs !! k = Some (ck, Some tk, okk) ->
      (tk <= tj)%Q /\ (tj <= 100)%Q.
Proof.
  split; [repeat split; vm_compute; reflexivity|].
  destruct (budget_never_grows demo_env demo_endpoints demo_world 100%Q)
    as (r & evs & Hrun & Hle).
  - repeat split; vm_compute; reflexivity.
  - assert (Hevs : evs = drop (length (history demo_world))
                     (history (snd (wait_for_service demo_env (Some 100%Q)
                                      demo_world)))).
    { rewrite Hrun. simpl. rewrite drop_app_length. reflexivity. }
    assert (Hnd : nondecreasing (clock_reads evs)).
    { rewrite Hevs. vm_compute. repeat split; discriminate. }
    exists r, evs. split; [exact Hrun|]. split; [exact Hnd|exact (Hle Hnd)].
Defined.

Lemma successes_cons c t ok ws :
  successes ((c, t, ok) :: ws)
  = (if ok then 1 else 0) + successes ws.
Proof.
  unfold successes. destruct ok.
  - rewrite filter_cons_True by reflexivity. reflexivity.
  - rewrite filter_cons_False by discriminate. reflexivity.
Qed.

Lemma shared_budget_counts cs b p evs r :
  shared_budget cs b p evs r ->
  length (waits evs) <= length cs /\
  length (clock_reads evs) = 2 * successes (waits evs) /\
  (r = true -> successes (waits evs) = length cs).
Proof.
  induction 1 as [b p|c cs b p Hneg|c cs b p Hge
                 |c cs b p now prev' evs r Hge Hsb IH].
  - simpl. repeat split; lia.
  - simpl. split; [lia|]. split; [reflexivity|discriminate].
  - cbn [waits clock_reads flat_map app]. rewrite successes_cons.
    simpl. split; [lia|]. split; [reflexivity|discriminate].
  - destruct IH as (IH1 & IH2 & IH3).
    change (waits (EvWaitForService c (Some b) true :: EvTime now
                   :: EvTime prev' :: evs))
      with ((c, Some b, true) :: waits evs).
    change (clock_reads (EvWaitForService c (Some b) true :: EvTime now
                         :: EvTime prev' :: evs))
      with (now :: prev' :: clock_reads evs).
    rewrite successes_cons. simpl length.
    split; [lia|]. split; [lia|]. intros Hr. specialize (IH3 Hr). lia.
Qed.

(** X8: a bounded wait on a constructed client invokes at most six
    underlying waits and reads the clock once, plus twice after every wait
    that returned true and not at all after a wait that returned false; it
    returns true only after six waits that returned true. *)
Theorem bounded_wait_counts E eps w (T : Q) :
  constructed eps w ->
  exists r evs,
    wait_for_service E (Some T) w
      = (Ok r, {| attrs := attrs w; history := history w ++ evs |}) /\
    length (waits evs) <= 6 /\
    length (clock_reads evs) = 1 + 2 * successes (waits evs) /\
    (r = true -> successes (waits evs) = 6).
Proof.
  intros Hcon.
  destruct (bounded_wait_run E eps w T Hcon) as (r & evs & Hrun & Hf & Hsb).
  exists r, (EvTime (env_time E (history w)) :: evs).
  split; [exact Hrun|].
  apply shared_budget_counts in Hsb. destruct Hsb as (H1 & H2 & H3).
  change (waits (EvTime (env_time E (history w)) :: evs)) with (waits evs).
  change (clock_reads (EvTime (env_time E (history w)) :: evs))
    with (env_time E (history w) :: clock_reads evs).
  simpl length in *. split; [lia|]. split; [lia|exact H3].
Qed.

Lemma bounded_wait_counts_witness :
  constructed demo_endpoints demo_world /\
  exists r evs,
    wait_for_service demo_env (Some 100%Q) demo_world
      = (Ok r, {| attrs := attrs demo_world;
                  history := history demo_world ++ evs |}) /\
    length (waits evs) <= 6 /\
    length (clock_reads evs) = 1 + 2 * successes (waits evs).
Proof.
  split; [repeat split; vm_compute; reflexivity|].
  destruct (bounded_wait_counts demo_env demo_endpoints demo_world 100%Q)
    as (r & evs & Hrun & Hw & Hc & _).
  - repeat split; vm_compute; reflexivity.
  - exists r, evs. auto.
Defined.

(** ** A client that was not constructed *)

Lemma getattr_client_cases attr w :
  (exists c, attrs w !! attr = Some (VClient c) /\
             getattr_client attr w = (Ok c, w)) \/
  getattr_client attr w = (Raise (AttributeError attr), w).
Proof.
  unfold getattr_client.
  destruct (attrs w !! attr) as [[s|n|c]|]; eauto.
Qed.

(** X9: [wait_for_service] reads its six client attributes before it does
    anything else.  When one of them is missing, with or without a
    time-out, it raises an attribute error for one of the six, and no
    underlying wait was invoked and the clock was not read. *)
Theorem wait_for_service_unconstructed E timeout_sec w a :
  In a client_attributes ->
  attrs w !! a = None ->
  exists a',
    In a' client_attributes /\
    wait_for_service E timeout_sec w = (Raise (AttributeError a'), w).
Proof.
  intros Hin Hnone. unfold wait_for_service.
  destruct (getattr_client_cases "_list_parameter_client" w)
    as [(c1 & H1 & G1)|G1];
    [erewrite bind_ok by exact G1
    |eexists; split; [|apply bind_raises; exact G1]; simpl; tauto].
  destruct (getattr_client_cases "_set_parameter_client" w)
    as [(c2 & H2 & G2)|G2];
    [erewrite bind_ok by exact G2
    |eexists; split; [|apply bind_raises; exact G2]; simpl; tauto].
  destruct (getattr_client_cases "_get_parameter_client" w)
    as [(c3 & H3 & G3)|G3];
    [erewrite bind_ok by exact G3
    |eexists; split; [|apply bind_raises; exact G3]; simpl; tauto].
  destruct (getattr_client_cases "_get_parameter_types_client" w)
    as [(c4 & H4 & G4)|G4];
    [erewrite bind_ok by exact G4
    |eexists; split; [|apply bind_raises; exact G4]; simpl; tauto].
  destruct (getattr_client_cases "_describe_parameters_client" w)
    as [(c5 & H5 & G5)|G5];
    [erewrite bind_ok by exact G5
    |eexists; split; [|apply bind_raises; exact G5]; simpl; tauto].
  destruct (getattr_client_cases "_set_parameters_atomically_client" w)
    as [(c6 & H6 & G6)|G6];
    [erewrite bind_ok by exact G6
    |eexists; split; [|apply bind_raises; exact G6]; simpl; tauto].
  exfalso. simpl in Hin.
  destruct Hin as [<-|[<-|[<-|[<-|[<-|[<-|[]]]]]]]; congruence.
Qed.

Lemma wait_for_service_unconstructed_witness :
  In "_describe_parameters_client" client_attributes /\
  attrs blank !! "_describe_parameters_client" = None /\
  exists a',
    In a' client_attributes /\
    wait_for_service demo_env (Some 1%Q) blank
      = (Raise (AttributeError a'), blank).
Proof.
  split; [simpl; tauto|]. split; [reflexivity|].
  apply (wait_for_service_unconstructed demo_env (Some 1%Q) blank
           "_describe_parameters_client").
  - simpl. tauto.
  - reflexivity.
Defined.

(** ** What each method asks of the collaborators *)

Lemma only_silent {A} P (m : M A) :
  (forall w, snd (m w) = w) -> only_adds P m.
Proof.
  intros H w. rewrite H. exists []. rewrite app_nil_r. split; constructor.
Qed.

Lemma only_logged {A} (P : Event -> Prop) (m : M A) (e : World -> Event) :
  (forall w, snd (m w) = log (e w) w) ->
  (forall w, P (e w)) ->
  only_adds P m.
Proof.
  intros H HP w. rewrite H. exists [e w].
  split; [reflexivity|]. constructor; [apply HP|constructor].
Qed.

Lemma only_ret {A} P (a : A) : only_adds P (ret a).
Proof. apply only_silent. reflexivity. Qed.

Lemma only_bind {A B} P (m : M A) (k : A -> M B) :
  only_adds P m -> (forall a, only_adds P (k a)) -> only_adds P (bind m k).
Proof.
  intros Hm Hk w. unfold bind.
  destruct (Hm w) as (evs & Hh & HP).
  destruct (m w) as [[a|e] w']; simpl in *.
  - destruct (Hk a w') as (evs' & Hh' & HP').
    exists (evs ++ evs'). rewrite Hh', Hh, <- app_assoc.
    split; [reflexivity|]. apply Forall_app. split; assumption.
  - exists evs. split; assumption.
Qed.

Lemma only_getattr_client P attr : only_adds P (getattr_client attr).
Proof.
  apply only_silent. intros w. unfold getattr_client.
  destruct (attrs w !! attr) as [[| |]|]; reflexivity.
Qed.

Lemma only_callback P (f : Future) (callback : option Callable) :
  (forall cb, P (EvAddDoneCallback f cb)) ->
  only_adds P
    match callback with
    | Some cb => add_done_callback f cb
    | None => ret tt
    end.
Proof.
  intros HP. destruct callback as [cb|]; [|apply only_ret].
  apply (only_logged P _ (fun _ => EvAddDoneCallback f cb)); auto.
Qed.

Lemma only_call_async P E c req :
  (forall f, P (EvCallAsync c req f)) -> only_adds P (call_async E c req).
Proof.
  intros HP.
  apply (only_logged P _
    (fun w => EvCallAsync c req (env_call_async E (history w) c req)));
    auto.
Qed.

Lemma only_client_wait_for_service P E c t :
  (forall r, P (EvWaitForService c t r)) ->
  only_adds P (client_wait_for_service E c t).
Proof.
  intros HP.
  apply (only_logged P _
    (fun w => EvWaitForService c t (env_wait_for_service E (history w) c t)));
    auto.
Qed.

Lemma only_client_service_is_ready P E c :
  (forall r, P (EvServiceIsReady c r)) ->
  only_adds P (client_service_is_ready E c).
Proof.
  intros HP.
  apply (only_logged P _
    (fun w => EvServiceIsReady c (env_service_is_ready E (history w) c)));
    auto.
Qed.

Lemma only_time_time P E :
  (forall t, P (EvTime t)) -> only_adds P (time_time E).
Proof.
  intros HP.
  apply (only_logged P _ (fun w => EvTime (env_time E (history w)))); auto.
Qed.

Lemma only_parameter_dict_from_yaml_file P E file wildcard :
  (forall r, P (EvParameterDictFromYamlFile file wildcard r)) ->
  only_adds P (parameter_dict_from_yaml_file E file wildcard).
Proof.
  intros HP.
  apply (only_logged P _
    (fun w => EvParameterDictFromYamlFile file wildcard
                (env_parameter_dict_from_yaml_file E (history w) file wildcard)));
    [|auto].
  intros w. unfold parameter_dict_from_yaml_file.
  destruct (env_parameter_dict_from_yaml_file E (history w) file wildcard);
    reflexivity.
Qed.

Lemma only_comprehension {A B} P (f : A -> M B) l :
  (forall x, only_adds P (f x)) -> only_adds P (comprehension f l).
Proof.
  intros Hf. induction l as [|x l IH]; simpl; [apply only_ret|].
  apply only_bind; [apply Hf|]. intros y.
  apply only_bind; [apply IH|]. intros ys. apply only_ret.
Qed.

Lemma only_wait_loop P E cs :
  (forall c b r, P (EvWaitForService c (Some b) r)) ->
  (forall t, P (EvTime t)) ->
  forall b p, only_adds P (wait_loop E cs b p).
Proof.
  intros HW HT. induction cs as [|c cs IH]; intros b p; simpl.
  - apply only_ret.
  - destruct (Qlt_le_dec b 0); [apply only_ret|].
    apply only_bind; [apply only_client_wait_for_service; auto|].
    intros [|]; simpl; [|apply only_ret].
    apply only_bind; [apply only_time_time, HT|]. intros now.
    apply only_bind; [apply only_time_time, HT|]. intros prev.
    apply IH.
Qed.

Lemma only_perform E op :
  only_adds (fun e => permitted (MCall op) e = true) (perform E op).
Proof.
  rewrite perform_shape.
  apply only_bind; [apply only_getattr_client|]. intros c.
  apply only_bind; [apply only_call_async; reflexivity|]. intros f.
  apply only_bind; [apply only_callback; reflexivity|]. intros _.
  apply only_ret.
Qed.

Lemma only_service_is_ready E :
  only_adds (fun e => permitted MServiceIsReady e = true)
    (service_is_ready E).
Proof.
  unfold service_is_ready.
  repeat (apply only_bind;
          [first [apply only_getattr_client
                 |apply only_client_service_is_ready; reflexivity]
          |intros ?]).
  apply only_ret.
Qed.

Lemma only_wait_for_service E t :
  only_adds (fun e => permitted (MWaitForService t) e = true)
    (wait_for_service E t).
Proof.
  unfold wait_for_service.
  repeat (apply only_bind; [apply only_getattr_client|intros ?]).
  destruct t as [T|]; cbv zeta.
  - apply only_bind; [apply only_time_time; reflexivity|].
    intros prev. apply only_wait_loop; reflexivity.
  - apply only_bind; [|intros; apply only_ret].
    apply only_comprehension. intros c.
    apply only_client_wait_for_service; reflexivity.
Qed.

Lemma only_load_parameter_file E file wildcard :
  only_adds (fun e => permitted (MLoadParameterFile file wildcard) e = true)
    (load_parameter_file E file wildcard).
Proof.
  unfold load_parameter_file.
  apply only_bind;
    [apply only_parameter_dict_from_yaml_file; reflexivity|].
  intros d. apply only_bind; [|intros; apply only_ret].
  unfold set_parameters.
  apply only_bind; [apply only_getattr_client|]. intros c.
  apply only_bind; [apply only_call_async; reflexivity|]. intros f.
  apply only_bind; [apply only_ret|]. intros _. apply only_ret.
Qed.

(** X10: every method keeps to its own collaborators, from any state of
    the client.  [service_is_ready] only probes readiness;
    [wait_for_service] only waits and, with a time-out, reads the clock; a
    call operation only makes asynchronous calls and registers callbacks,
    so it neither probes readiness nor waits nor reads the clock before it
    sends; [load_parameter_file] only parses and calls. *)
Theorem methods_keep_to_their_collaborators E (m : Method) w :
  exists evs,
    history (world_after E m w) = history w ++ evs /\
    Forall (fun e => permitted m e = true) evs.
Proof.
  destruct m as [|t|op|file wildcard]; simpl.
  - apply only_service_is_ready.
  - apply only_wait_for_service.
  - apply only_perform.
  - apply only_load_parameter_file.
Qed.

(** ** The constructor *)


(** ** A bounded wait that nothing delays *)

Lemma shared_budget_undelayed E t0 cs b p evs r :
  (forall h c t, env_wait_for_service E h c t = true) ->
  (forall h, env_time E h = t0) ->
  shared_budget cs b p evs r ->
  forall h, faithful E h evs -> (0 <= b)%Q -> p = t0 ->
  r = true /\ length (waits evs) = length cs.
Proof.
  intros Hwait Hclock.
  induction 1 as [b p|c cs b p Hneg|c cs b p Hge
                 |c cs b p now prev' evs r Hge Hsb IH];
    intros h Hf Hb Hp.
  - auto.
  - exfalso. lra.
  - destruct Hf as (Hr & _). simpl in Hr. rewrite Hwait in Hr.
    discriminate Hr.
  - destruct Hf as (_ & Hnow & Hprev & Hf). simpl in Hnow, Hprev.
    rewrite Hclock in Hnow, Hprev. subst now prev' p.
    destruct (IH _ Hf) as (-> & Hlen); [lra|reflexivity|].
    change (waits (EvWaitForService c (Some b) true :: EvTime t0
                   :: EvTime t0 :: evs))
      with ((c, Some b, true) :: waits evs).
    simpl length. auto.
Qed.

(** X12: when every underlying wait returns true and the clock does not
    move, a bounded wait with a time-out that is not negative returns true
    after waiting for all six clients. *)
Theorem bounded_wait_succeeds_undelayed E eps w (T t0 : Q) :
  constructed eps w ->
  (0 <= T)%Q ->
  (forall h c t, env_wait_for_service E h c t = true) ->
  (forall h, env_time E h = t0) ->
  exists evs,
    wait_for_service E (Some T) w
      = (Ok true, {| attrs := attrs w; history := history w ++ evs |}) /\
    length (waits evs) = 6.
Proof.
  intros Hcon HT Hwait Hclock.
  destruct (bounded_wait_run E eps w T Hcon) as (r & evs & Hrun & Hf & Hsb).
  destruct (shared_budget_undelayed E t0 _ _ _ _ _ Hwait Hclock Hsb _ Hf HT
              (Hclock _)) as (-> & Hlen).
  exists (EvTime (env_time E (history w)) :: evs).
  split; [exact Hrun|exact Hlen].
Qed.

Lemma bounded_wait_succeeds_undelayed_witness :
  constructed demo_endpoints still_world /\
  (0 <= 0)%Q /\
  (forall h c t, env_wait_for_service still_env h c t = true) /\
  (forall h, env_time still_env h = 5%Q) /\
  exists evs,
    wait_for_service still_env (Some 0%Q) still_world
      = (Ok true, {| attrs := attrs still_world;
                     history := history still_world ++ evs |}) /\
    length (waits evs) = 6.
Proof.
  split; [repeat split; vm_compute; reflexivity|].
  split; [discriminate|].
  split; [reflexivity|]. split; [reflexivity|].
  apply (bounded_wait_succeeds_undelayed still_env demo_endpoints still_world
           0%Q 5%Q).
  - repeat split; vm_compute; reflexivity.
  - discriminate.
  - reflexivity.
  - reflexivity.
Defined.
